(** * Output resolution and citation enrichment of the custom-workflow processor

    A shallow embedding of [src/src/flow/io_mapping.py] (the [OutputMapper])
    and of [src/src/flow/activity.py] ([_enrich_with_annotations] and
    [CustomWorkflowActivity._resolve_flow_and_params]).

    Python values flowing through the flow outputs are modelled by [val]:
    JSON-like data, with dicts as association lists in insertion order.
    JSON numbers are kept as integers; floating-point values themselves are
    not modelled (no claim depends on them).  Python exceptions are the
    constructors of [py_error]; a raising computation returns [Err]. *)

From Stdlib Require Import String Ascii List ZArith Bool Lia Permutation Sorted.
Import ListNotations.
Open Scope string_scope.
Set Warnings "-register-all".

(** ** Python values, exceptions and the error monad *)

Inductive val : Type :=
| VNone
| VBool (b : bool)
| VNum (z : Z)
| VStr (s : string)
| VList (l : list val)
| VDict (d : list (string * val)).

(** Exception messages.  Literal messages are kept as text; the f-string
    messages keep their interpolated data (an index, a set of field names,
    the key list, the unresolved ids), since the textual rendering of a
    Python [set] has no fixed order. *)
Inductive msg : Type :=
| MText (s : string)
| MIndexed (idx : nat) (s : string)
| MMissingFields (idx : option nat) (fields : list string)
| MGotKeys (keys : list string)
| MUnresolved (nmissing ntotal : nat) (sample : list val).

Inductive py_error : Type :=
| ValueError (m : msg)
| TypeError (m : msg)
| RuntimeError (m : msg)
| KeyError (k : val)
| AttributeError (attr : string)
| RecursionError (what : string).

Inductive result (A : Type) : Type :=
| Ok (a : A)
| Err (e : py_error).
Arguments Ok {A} a.
Arguments Err {A} e.

Definition bind {A B} (c : result A) (f : A -> result B) : result B :=
  match c with
  | Ok a => f a
  | Err e => Err e
  end.

Notation "'let*' x ':=' c1 'in' c2" := (bind c1 (fun x => c2))
  (at level 61, x pattern, c1 at next level, right associativity).

(** [mapM] over a list, failing at the first error (a Python [for] loop). *)
Fixpoint mapR {A B} (f : A -> result B) (l : list A) : result (list B) :=
  match l with
  | [] => Ok []
  | x :: r => let* y := f x in let* ys := mapR f r in Ok (y :: ys)
  end.

(** Same, with the position of each element ([enumerate]). *)
Fixpoint mapR_idx {A B} (f : nat -> A -> result B) (i : nat) (l : list A)
  : result (list B) :=
  match l with
  | [] => Ok []
  | x :: r => let* y := f i x in let* ys := mapR_idx f (S i) r in Ok (y :: ys)
  end.

(** Python truthiness. *)
Definition truthy (v : val) : bool :=
  match v with
  | VNone => false
  | VBool b => b
  | VNum z => negb (Z.eqb z 0)
  | VStr s => negb (String.eqb s "")
  | VList l => match l with [] => false | _ => true end
  | VDict d => match d with [] => false | _ => true end
  end.

(** [a or b] *)
Definition py_or (a b : val) : val := if truthy a then a else b.

(** Dict lookup ([k in d], [d.get(k, default)]), keys and item assignment. *)
Fixpoint dget (d : list (string * val)) (k : string) : option val :=
  match d with
  | [] => None
  | (k', v) :: r => if String.eqb k' k then Some v else dget r k
  end.

Definition dmem (d : list (string * val)) (k : string) : bool :=
  match dget d k with Some _ => true | None => false end.

Definition get_or (d : list (string * val)) (k : string) (dflt : val) : val :=
  match dget d k with Some v => v | None => dflt end.

Definition dkeys (d : list (string * val)) : list string := map fst d.

Fixpoint dset (d : list (string * val)) (k : string) (v : val)
  : list (string * val) :=
  match d with
  | [] => [(k, v)]
  | (k', v') :: r =>
      if String.eqb k' k then (k', v) :: r else (k', v') :: dset r k v
  end.

(** [x.get(k, default)] on an arbitrary value: only dicts have [.get]. *)
Definition dict_get (x : val) (k : string) (dflt : val) : result val :=
  match x with
  | VDict d => Ok (get_or d k dflt)
  | _ => Err (AttributeError "get")
  end.

(** [list(v)] and [for x in v]: lists, strings (characters) and dicts
    (keys) are iterable; the other values raise [TypeError]. *)
Definition py_list (v : val) : result (list val) :=
  match v with
  | VList l => Ok l
  | VStr s => Ok (map (fun c => VStr (String c EmptyString)) (list_ascii_of_string s))
  | VDict d => Ok (map (fun kv => VStr (fst kv)) d)
  | _ => Err (TypeError (MText "object is not iterable"))
  end.

(** [",".join(xs)]: every element must be a string. *)
Fixpoint py_join (sep : string) (xs : list val) : result string :=
  match xs with
  | [] => Ok ""
  | [VStr s] => Ok s
  | VStr s :: r => let* t := py_join sep r in Ok (s ++ sep ++ t)
  | _ :: _ => Err (TypeError (MText "sequence item: expected str instance"))
  end.

(** [required_fields - set(d.keys())], listed in the order of [required]. *)
Definition missing_of (required : list string) (d : list (string * val))
  : list string :=
  filter (fun f => negb (dmem d f)) required.

(** ** The protocol messages: [Question], [Annotation], [QuestionAnswer] *)

Record Question : Type := mkQuestion {
  q_id : string;
  q_question : string;
  q_expectedAnswer : string;
  q_inputQuestionIds : list string
}.

(** A bounding-box position: [x0], [y0], [x1], [y1] and the page number. *)
Definition position : Type := (Z * Z * Z * Z * Z)%type.

Record Annotation : Type := mkAnnotation {
  ann_id : string;
  ann_documentId : string;
  ann_documentName : string;
  ann_content : string;
  ann_positions : list position
}.

Record QuestionAnswer : Type := mkQA {
  qa_id : string;
  qa_question : string;
  qa_expectedAnswer : string;
  qa_sourcedContent : string;
  qa_explanation : string;
  qa_answerValidity : Z;
  qa_validityExplanation : string;
  qa_annotations : list Annotation;
  qa_inputQuestionIds : list string
}.

(** Setting a string field in a message constructor: [None] leaves the
    field unset ([""]), any non-string raises [TypeError]. *)
Definition proto_str (v : val) : result string :=
  match v with
  | VNone => Ok ""
  | VStr s => Ok s
  | _ => Err (TypeError (MText "expected str"))
  end.

(** Appending to a repeated string field: only strings are accepted. *)
Definition proto_append_str (v : val) : result string :=
  match v with
  | VStr s => Ok s
  | _ => Err (TypeError (MText "expected str"))
  end.

(** Setting a float field in a message constructor. *)
Definition proto_float (v : val) : result Z :=
  match v with
  | VNone => Ok 0%Z
  | VNum z => Ok z
  | VBool b => Ok (Z.b2z b)
  | _ => Err (TypeError (MText "expected float"))
  end.

(** [get_question_index]: position of the first question with that text,
    [-1] if none. *)
Fixpoint get_question_index_from (i : Z) (question : string)
  (questions : list Question) : Z :=
  match questions with
  | [] => (-1)%Z
  | q :: r =>
      if String.eqb q.(q_question) question then i
      else get_question_index_from (i + 1) question r
  end.

Definition get_question_index (question : string) (questions : list Question)
  : Z := get_question_index_from 0 question questions.

(** [list.sort(key=...)] is a stable sort; a stable insertion sort computes
    the same list. *)
Section SortByKey.
Context {A : Type} (key : A -> Z).

Fixpoint insert_by (x : A) (l : list A) : list A :=
  match l with
  | [] => [x]
  | y :: r => if (key x <=? key y)%Z then x :: y :: r else y :: insert_by x r
  end.

Fixpoint sort_by (l : list A) : list A :=
  match l with
  | [] => []
  | x :: r => insert_by x (sort_by r)
  end.
End SortByKey.

(** [{q.id: q for q in original_questions}.get(id)]: the last question with
    that id wins. *)
Definition questions_by_id (qs : list Question) (k : string) : option Question :=
  find (fun q => String.eqb q.(q_id) k) (rev qs).

(** Python's [float(s)] and [int(s)] on strings are left as parameters:
    whether a string parses as a number is not the concern of this model. *)
Section OutputMapper.
Variable float_of_str : string -> option Z.
Variable int_of_str : string -> option Z.

Definition py_float (v : val) : result Z :=
  match v with
  | VNum z => Ok z
  | VBool b => Ok (Z.b2z b)
  | VStr s =>
      match float_of_str s with
      | Some z => Ok z
      | None => Err (ValueError (MText "could not convert string to float"))
      end
  | _ => Err (TypeError (MText "float() argument must be a string or a real number"))
  end.

Definition py_int (v : val) : result Z :=
  match v with
  | VNum z => Ok z
  | VBool b => Ok (Z.b2z b)
  | VStr s =>
      match int_of_str s with
      | Some z => Ok z
      | None => Err (ValueError (MText "invalid literal for int()"))
      end
  | _ => Err (TypeError (MText "int() argument must be a string or a real number"))
  end.

(** One element of [doc_stmt_raw.get("positions", [])]. *)
Definition build_position (pos_raw : val) : result (option position) :=
  let* bbox_pos_raw := dict_get pos_raw "bboxPosition" (VDict []) in
  let* bbox_raw := dict_get bbox_pos_raw "bbox" (VDict []) in
  if truthy bbox_raw then
    let* x0 := dict_get bbox_raw "x0" (VNum 0) in let* x0 := py_float x0 in
    let* y0 := dict_get bbox_raw "y0" (VNum 0) in let* y0 := py_float y0 in
    let* x1 := dict_get bbox_raw "x1" (VNum 0) in let* x1 := py_float x1 in
    let* y1 := dict_get bbox_raw "y1" (VNum 0) in let* y1 := py_float y1 in
    let* pg := dict_get bbox_pos_raw "pageNumber" (VNum 0) in
    let* pg := py_int pg in
    Ok (Some (x0, y0, x1, y1, pg))
  else Ok None.

(** One element of the raw annotation list; [None] when it is skipped. *)
Definition build_annotation (raw : val) : result (option Annotation) :=
  match raw with
  | VDict d =>
      let ann_id := get_or d "id" (VStr "") in
      let doc_stmt_raw := get_or d "documentStatement" (VDict []) in
      if negb (truthy doc_stmt_raw) then Ok None else
      let* ps := dict_get doc_stmt_raw "positions" (VList []) in
      let* ps := py_list ps in
      let* positions := mapR build_position ps in
      let* did := dict_get doc_stmt_raw "documentId" (VStr "") in
      let* did := proto_str did in
      let* dname := dict_get doc_stmt_raw "documentName" (VStr "") in
      let* dname := proto_str dname in
      let* content := dict_get doc_stmt_raw "content" (VStr "") in
      let* content := proto_str content in
      let* aid := proto_str ann_id in
      Ok (Some (mkAnnotation aid did dname content
                  (flat_map (fun o => match o with Some p => [p] | None => [] end)
                     positions)))
  | _ => Ok None
  end.

(** [OutputMapper._build_annotations] *)
Definition build_annotations (raw_annotations : val) : result (list Annotation) :=
  let* raws := py_list raw_annotations in
  let* anns := mapR build_annotation raws in
  Ok (flat_map (fun o => match o with Some a => [a] | None => [] end) anns).

(** The citation part of an answer record [r]: the [citation_ids] list,
    the linkage check and the [sourcedContent] text.  [err] is the
    exception raised when [justifying_contents_ids] is non-empty but no
    citation id is present. *)
Definition sourced_content_of (r : list (string * val)) (answer_text : string)
  (err : py_error) : result string :=
  let* citation_ids :=
    py_list (py_or (get_or r "citation_annotation_ids" (VList [])) (VList [])) in
  if truthy (get_or r "justifying_contents_ids" VNone) &&
     match citation_ids with [] => true | _ => false end
  then Err err
  else match citation_ids with
       | [] => Ok answer_text
       | _ => let* cite_refs := py_join "," citation_ids in
              Ok ("[" ++ answer_text ++ "](cite:" ++ cite_refs ++ ")")
       end.

Definition is_str (v : val) : bool := match v with VStr _ => true | _ => false end.
Definition is_list (v : val) : bool := match v with VList _ => true | _ => false end.
Definition str_of (v : val) : string := match v with VStr s => s | _ => "" end.

Definition single_required : list string :=
  ["answer"; "justifying_contents_ids"; "answer_explanation"].

Definition missing_citation_msg : string :=
  "final_result.justifying_contents_ids is non-empty but citation_annotation_ids is missing. Annotation enrichment is required for QuestionAnswering-compatible output.".

(** [OutputMapper._handle_single_question] *)
Definition handle_single_question (flow_outputs : list (string * val))
  (original_questions : list Question) : result (list QuestionAnswer) :=
  match get_or flow_outputs "final_result" VNone with
  | VDict ((_ :: _) as fr) =>
      match missing_of single_required fr with
      | (_ :: _) as missing => Err (ValueError (MMissingFields None missing))
      | [] =>
      let answer := get_or fr "answer" VNone in
      let jcids := get_or fr "justifying_contents_ids" VNone in
      let explanation := get_or fr "answer_explanation" VNone in
      if negb (is_str answer) then
        Err (TypeError (MText "final_result.answer must be a string")) else
      if negb (is_list jcids) then
        Err (TypeError (MText "final_result.justifying_contents_ids must be a list")) else
      if negb (is_str explanation) then
        Err (TypeError (MText "final_result.answer_explanation must be a string")) else
      match original_questions with
      | [] => Err (ValueError
                     (MText "No original questions provided for single-question output"))
      | q :: _ =>
          let* sourced := sourced_content_of fr (str_of answer)
                            (ValueError (MText missing_citation_msg)) in
          let* annotations := build_annotations (get_or fr "annotations" (VList [])) in
          let* validity := proto_float (get_or fr "answer_validity" (VNum 1)) in
          let* vexpl := proto_str (get_or fr "validity_explanation" (VStr "")) in
          Ok [mkQA q.(q_id) q.(q_question) q.(q_expectedAnswer) sourced
                (str_of explanation) validity vexpl annotations
                q.(q_inputQuestionIds)]
      end
      end
  | _ => Err (ValueError (MText "Missing or invalid 'final_result' in flow outputs"))
  end.

Definition multi_required : list string :=
  ["id"; "question"; "answer"; "justifying_contents_ids"; "answer_explanation"].

(** The body of the loop of [OutputMapper._handle_multi_question] for the
    element [raw] at index [idx]. *)
Definition handle_answer (original_questions : list Question) (idx : nat)
  (raw : val) : result QuestionAnswer :=
  match raw with
  | VDict r =>
      match missing_of multi_required r with
      | (_ :: _) as missing => Err (ValueError (MMissingFields (Some idx) missing))
      | [] =>
      let id := get_or r "id" VNone in
      let qtext := get_or r "question" VNone in
      let answer := get_or r "answer" VNone in
      let jcids := get_or r "justifying_contents_ids" VNone in
      let explanation := get_or r "answer_explanation" VNone in
      if negb (is_str id) then
        Err (TypeError (MIndexed idx "'id' must be a string")) else
      if negb (is_str qtext) then
        Err (TypeError (MIndexed idx "'question' must be a string")) else
      if negb (is_str answer) then
        Err (TypeError (MIndexed idx "'answer' must be a string")) else
      if negb (is_list jcids) then
        Err (TypeError (MIndexed idx "'justifying_contents_ids' must be a list")) else
      if negb (is_str explanation) then
        Err (TypeError (MIndexed idx "'answer_explanation' must be a string")) else
      let* sourced := sourced_content_of r (str_of answer)
        (ValueError (MIndexed idx "justifying_contents_ids is non-empty but citation_annotation_ids is missing. Annotation enrichment is required for QuestionAnswering-compatible output.")) in
      let original_q := questions_by_id original_questions (str_of id) in
      let expected0 := get_or r "expected_answer" (VStr "") in
      let expected :=
        if negb (truthy expected0) then
          match original_q with
          | Some oq => VStr oq.(q_expectedAnswer)
          | None => expected0
          end
        else expected0 in
      let* annotations := build_annotations (get_or r "annotations" (VList [])) in
      let* validity := py_float (get_or r "answer_validity" (VNum 1)) in
      let* expected := proto_str expected in
      let* vexpl := proto_str (get_or r "validity_explanation" (VStr "")) in
      let* deps := py_list (py_or (get_or r "input_question_ids" VNone) (VList [])) in
      let* deps := mapR proto_append_str deps in
      Ok (mkQA (str_of id) (str_of qtext) expected sourced (str_of explanation)
            validity vexpl annotations deps)
      end
  | _ => Err (TypeError (MIndexed idx "must be a dict"))
  end.

(** [OutputMapper._handle_multi_question] *)
Definition handle_multi_question (flow_outputs : list (string * val))
  (original_questions : list Question) : result (list QuestionAnswer) :=
  match get_or flow_outputs "answers" VNone with
  | VList raw_answers =>
      let* answers := mapR_idx (handle_answer original_questions) 0 raw_answers in
      Ok (sort_by (fun a => get_question_index a.(qa_question) original_questions)
            answers)
  | _ => Err (TypeError (MText "'answers' must be a list"))
  end.

(** [OutputMapper.to_question_answers] *)
Definition to_question_answers (flow_outputs : list (string * val))
  (original_questions : list Question) : result (list QuestionAnswer) :=
  if dmem flow_outputs "final_result" then
    handle_single_question flow_outputs original_questions
  else if dmem flow_outputs "answers" then
    handle_multi_question flow_outputs original_questions
  else Err (ValueError (MGotKeys (dkeys flow_outputs))).

End OutputMapper.

(** ** Content ids: [uuid.uuid5(uuid.NAMESPACE_OID, f"{document_id}:{chunk_id}")]

    SHA-1 over a list of bytes (each a [Z] in [0, 256)), 32-bit words with
    their wrap-around written out.  Strings are byte strings: a Python [str]
    is identified with its UTF-8 encoding. *)
Module Sha1.
Open Scope Z_scope.

Definition mask32 (x : Z) : Z := Z.land x (2 ^ 32 - 1).
Definition add32 (x y : Z) : Z := mask32 (x + y).
Definition rotl (n : Z) (x : Z) : Z :=
  mask32 (Z.lor (Z.shiftl x n) (Z.shiftr x (32 - n))).
Definition not32 (x : Z) : Z := Z.lxor x (2 ^ 32 - 1).

(** Big-endian encoding of [x] on [n] bytes. *)
Fixpoint be_bytes (n : nat) (x : Z) : list Z :=
  match n with
  | O => []
  | S m => be_bytes m (Z.shiftr x 8) ++ [Z.land x 255]
  end.

Fixpoint be_word (bs : list Z) (acc : Z) : Z :=
  match bs with
  | [] => acc
  | b :: r => be_word r (Z.lor (Z.shiftl acc 8) b)
  end.

(** Padding: [0x80], zeros up to 56 mod 64, the bit length on 8 bytes. *)
Definition pad (m : list Z) : list Z :=
  let l := Z.of_nat (length m) in
  let zeros := (119 - (l mod 64)) mod 64 in
  m ++ [128] ++ repeat 0 (Z.to_nat zeros) ++ be_bytes 8 (l * 8).

Fixpoint words (fuel : nat) (bs : list Z) : list Z :=
  match fuel with
  | O => []
  | S f =>
      match bs with
      | [] => []
      | _ => be_word (firstn 4 bs) 0 :: words f (skipn 4 bs)
      end
  end.

(** Message schedule, built newest-first: [w] holds [W(t-1)], [W(t-2)], ... *)
Fixpoint schedule (n : nat) (w : list Z) : list Z :=
  match n with
  | O => w
  | S m =>
      let nw := rotl 1 (Z.lxor (Z.lxor (nth 2 w 0) (nth 7 w 0))
                              (Z.lxor (nth 13 w 0) (nth 15 w 0))) in
      schedule m (nw :: w)
  end.

Definition f_k (t : nat) (b c d : Z) : Z * Z :=
  if (t <? 20)%nat then (Z.lor (Z.land b c) (Z.land (not32 b) d), 1518500249)
  else if (t <? 40)%nat then (Z.lxor (Z.lxor b c) d, 1859775393)
  else if (t <? 60)%nat then
    (Z.lor (Z.lor (Z.land b c) (Z.land b d)) (Z.land c d), 2400959708)
  else (Z.lxor (Z.lxor b c) d, 3395469782).

Definition state : Type := (Z * Z * Z * Z * Z)%type.

Fixpoint rounds (t : nat) (ws : list Z) (s : state) : state :=
  match ws with
  | [] => s
  | w :: r =>
      let '(a, b, c, d, e) := s in
      let '(f, k) := f_k t b c d in
      let temp := add32 (add32 (add32 (add32 (rotl 5 a) f) e) k) w in
      rounds (S t) r (temp, a, rotl 30 b, c, d)
  end.

Definition block (h : state) (blk : list Z) : state :=
  let ws := rev (schedule 64 (rev (words 16 blk))) in
  let '(a, b, c, d, e) := rounds 0 ws h in
  let '(h0, h1, h2, h3, h4) := h in
  (add32 h0 a, add32 h1 b, add32 h2 c, add32 h3 d, add32 h4 e).

Fixpoint blocks (fuel : nat) (bs : list Z) (h : state) : state :=
  match fuel with
  | O => h
  | S f =>
      match bs with
      | [] => h
      | _ => blocks f (skipn 64 bs) (block h (firstn 64 bs))
      end
  end.

Definition h_init : state :=
  (1732584193, 4023233417, 2562383102, 271733878, 3285377520).

Definition digest (m : list Z) : list Z :=
  let p := pad m in
  let '(h0, h1, h2, h3, h4) := blocks (length p) p h_init in
  be_bytes 4 h0 ++ be_bytes 4 h1 ++ be_bytes 4 h2 ++ be_bytes 4 h3 ++ be_bytes 4 h4.
End Sha1.

Module Uuid.
Open Scope Z_scope.

Definition bytes_of_string (s : string) : list Z :=
  map (fun c => Z.of_nat (nat_of_ascii c)) (list_ascii_of_string s).

(** [uuid.NAMESPACE_OID.bytes] *)
Definition NAMESPACE_OID : list Z :=
  [107; 167; 184; 18; 157; 173; 17; 209; 128; 180; 0; 192; 79; 212; 48; 200].

Definition hex_digit (n : Z) : ascii :=
  if n <? 10 then ascii_of_nat (48 + Z.to_nat n)
  else ascii_of_nat (87 + Z.to_nat n).

Definition hex_byte (b : Z) : string :=
  String (hex_digit (Z.shiftr b 4)) (String (hex_digit (Z.land b 15)) EmptyString).

Definition hex (bs : list Z) : string := String.concat "" (map hex_byte bs).

(** [UUID(bytes=hash[:16], version=5)]: version nibble 5 in byte 6,
    variant bits [10] in byte 8. *)
Definition set_version (bs : list Z) : list Z :=
  firstn 6 bs ++ [Z.lor (Z.land (nth 6 bs 0) 15) 80] ++
  [nth 7 bs 0] ++ [Z.lor (Z.land (nth 8 bs 0) 63) 128] ++ skipn 9 bs.

(** [str(uuid)]: 8-4-4-4-12 lowercase hex digits. *)
Definition to_str (bs : list Z) : string :=
  hex (firstn 4 bs) ++ "-" ++ hex (firstn 2 (skipn 4 bs)) ++ "-" ++
  hex (firstn 2 (skipn 6 bs)) ++ "-" ++ hex (firstn 2 (skipn 8 bs)) ++ "-" ++
  hex (skipn 10 bs).

(** [uuid.uuid5(namespace, name)] *)
Definition uuid5 (namespace : list Z) (name : string) : string :=
  to_str (set_version (firstn 16 (Sha1.digest (namespace ++ bytes_of_string name)))).
End Uuid.

(** [_content_id], local to [_enrich_with_annotations]. *)
Definition _content_id (document_id chunk_id : string) : string :=
  Uuid.uuid5 Uuid.NAMESPACE_OID (document_id ++ ":" ++ chunk_id).

Example content_id_vector :
  _content_id "d1" "ch1" = "957da99a-e935-53d3-acd2-e879ffde0604".
Proof. vm_compute. reflexivity. Qed.

Example uuid5_empty_vector :
  Uuid.uuid5 Uuid.NAMESPACE_OID "" = "0a68eb57-c88a-5f34-9e9d-27f85e68af4f".
Proof. vm_compute. reflexivity. Qed.

(** ** [_enrich_with_annotations] *)

(** Python [str] helpers: [s.split(sep, 1)] at the first occurrence,
    [len(s)] and [s.count(c)]. *)
Fixpoint sdrop (n : nat) (s : string) : string :=
  match n, s with
  | O, _ => s
  | S m, String _ r => sdrop m r
  | S _, EmptyString => EmptyString
  end.

Fixpoint split_once (sep s : string) : option (string * string) :=
  if String.prefix sep s then Some (EmptyString, sdrop (String.length sep) s)
  else match s with
       | EmptyString => None
       | String c r =>
           match split_once sep r with
           | Some (b, a) => Some (String c b, a)
           | None => None
           end
       end.

Fixpoint count_char (c : ascii) (s : string) : nat :=
  match s with
  | EmptyString => O
  | String d r => (if Ascii.eqb c d then 1 else 0) + count_char c r
  end.

Definition str_in (x : string) (l : list string) : bool :=
  existsb (String.eqb x) l.

(** The entity-descriptor encoding of a bare document UUID. *)
Definition entity_of (raw_id : string) : string :=
  "id=UUID('" ++ raw_id ++ "') entity_type='FILE'".

(** [_doc_id_variants], local to [_enrich_with_annotations]. *)
Definition _doc_id_variants (raw_id : string) : list string :=
  let v1 := if String.eqb raw_id "" then [] else [raw_id] in
  let v2 :=
    match split_once "UUID('" raw_id with
    | Some (_, after) =>
        let extracted :=
          match split_once "')" after with Some (b, _) => b | None => after end in
        if negb (String.eqb extracted "") && negb (str_in extracted v1)
        then (v1 ++ [extracted])%list else v1
    | None => v1
    end in
  if Nat.eqb (String.length raw_id) 36 && Nat.eqb (count_char "-" raw_id) 4 then
    let entity := entity_of raw_id in
    if negb (str_in entity v2) then (v2 ++ [entity])%list else v2
  else v2.

(** Source documents and the chunks the search service returns for them. *)
Record FileMeta : Type := mkFile {
  f_id : string;
  f_checksum : string;
  f_name : string
}.

(** A chunk; a position of [chunk.meta_data.positions] is [Some] bounding box
    for a [PositionBbox] with a bbox and [None] for any other kind. *)
Record Chunk : Type := mkChunk {
  ch_id : string;
  ch_content : string;
  ch_positions : list (option position)
}.

(** The search client: whether its session is already open, and
    [get_document_chunks] by checksum. *)
Record SearchService : Type := mkService {
  session_open : bool;
  get_document_chunks : string -> list Chunk
}.

(** Interactions with the search service, in order. *)
Inductive event : Type :=
| EvSearchClient
| EvStart
| EvGetChunks (checksum : string).

(** Set membership and equality on hashable values ([1 == True]). *)
Definition num_of (v : val) : option Z :=
  match v with VNum z => Some z | VBool b => Some (Z.b2z b) | _ => None end.

Definition py_eqb (a b : val) : bool :=
  match a, b with
  | VNone, VNone => true
  | VStr s, VStr t => String.eqb s t
  | _, _ =>
      match num_of a, num_of b with
      | Some x, Some y => Z.eqb x y
      | _, _ => false
      end
  end.

Definition hashable (v : val) : bool :=
  match v with VList _ | VDict _ => false | _ => true end.

Definition unhashable_err : py_error := TypeError (MText "unhashable type").

(** [[x for x in content_ids if not (x in seen or seen.add(x))]] *)
Fixpoint dedup (seen : list val) (l : list val) : result (list val) :=
  match l with
  | [] => Ok []
  | x :: r =>
      if negb (hashable x) then Err unhashable_err
      else if existsb (py_eqb x) seen then dedup seen r
      else let* t := dedup (x :: seen) r in Ok (x :: t)
  end.

(** [list(x.get("justifying_contents_ids", []) or [])] *)
Definition jcids_of (x : val) : result (list val) :=
  let* j := dict_get x "justifying_contents_ids" (VList []) in
  py_list (py_or j (VList [])).

(** The content ids referenced by the flow outputs: those of
    [final_result] when that key is present, else those of [answers]. *)
Definition collect_content_ids (flow_outputs : list (string * val))
  : result (list val) :=
  if dmem flow_outputs "final_result" then
    jcids_of (get_or flow_outputs "final_result" (VDict []))
  else if dmem flow_outputs "answers" then
    let* answers := py_list (py_or (get_or flow_outputs "answers" (VList [])) (VList [])) in
    let* per := mapR jcids_of answers in
    Ok (concat per)
  else Ok [].

(** The scan state: the [remaining] set and [chunk_by_content_id]. *)
Record scan_state : Type := mkScan {
  remaining : list val;
  chunk_by_content_id : list (string * (Chunk * string * string))
}.

Definition remaining_empty (st : scan_state) : bool :=
  match st.(remaining) with [] => true | _ => false end.

(** [for doc_id in doc_id_candidates: ...] for one chunk [ch] of [f]. *)
Fixpoint scan_candidates (f : FileMeta) (ch : Chunk) (cands : list string)
  (st : scan_state) : scan_state :=
  match cands with
  | [] => st
  | doc_id :: r =>
      let cid := _content_id doc_id ch.(ch_id) in
      if existsb (py_eqb (VStr cid)) st.(remaining) then
        let st' := mkScan (filter (fun x => negb (py_eqb (VStr cid) x)) st.(remaining))
                     ((cid, (ch, f.(f_id), f.(f_name))) :: st.(chunk_by_content_id)) in
        if remaining_empty st' then st' else scan_candidates f ch r st'
      else scan_candidates f ch r st
  end.

(** [for ch in doc_chunks: ...] *)
Fixpoint scan_chunks (f : FileMeta) (cands : list string) (chs : list Chunk)
  (st : scan_state) : scan_state :=
  match chs with
  | [] => st
  | ch :: r =>
      if String.eqb ch.(ch_id) "" then scan_chunks f cands r st
      else
        let st' := scan_candidates f ch cands st in
        if remaining_empty st' then st' else scan_chunks f cands r st'
  end.

(** [for f in source_files: ...], recording the service calls. *)
Fixpoint scan_files (svc : SearchService) (files : list FileMeta)
  (st : scan_state) (trace : list event) : scan_state * list event :=
  match files with
  | [] => (st, trace)
  | f :: r =>
      if String.eqb f.(f_id) "" || String.eqb f.(f_checksum) "" then
        scan_files svc r st trace
      else
        let cands := _doc_id_variants f.(f_id) in
        let chs := svc.(get_document_chunks) f.(f_checksum) in
        let trace' := (trace ++ [EvGetChunks f.(f_checksum)])%list in
        let st' := scan_chunks f cands chs st in
        if remaining_empty st' then (st', trace') else scan_files svc r st' trace'
  end.

(** [sorted(remaining)]: strings sort among themselves, numbers (with
    booleans) among themselves; any other mix of two or more elements meets
    an unsupported [<] and raises [TypeError]. *)
Fixpoint insert_str (x : string) (l : list string) : list string :=
  match l with
  | [] => [x]
  | y :: r => if String.leb x y then x :: y :: r else y :: insert_str x r
  end.

Fixpoint sort_str (l : list string) : list string :=
  match l with [] => [] | x :: r => insert_str x (sort_str r) end.

Fixpoint all_strs (l : list val) : option (list string) :=
  match l with
  | [] => Some []
  | VStr s :: r => match all_strs r with Some t => Some (s :: t) | None => None end
  | _ => None
  end.

Definition py_sorted (l : list val) : result (list val) :=
  match l with
  | [] | [_] => Ok l
  | _ =>
      match all_strs l with
      | Some ss => Ok (map VStr (sort_str ss))
      | None =>
          if forallb (fun v => match num_of v with Some _ => true | None => false end) l
          then Ok (sort_by (fun v => match num_of v with Some z => z | None => 0%Z end) l)
          else Err (TypeError (MText "'<' not supported between instances"))
      end
  end.

Fixpoint lookup_cid (m : list (string * (Chunk * string * string))) (cid : val)
  : option (Chunk * string * string) :=
  match m with
  | [] => None
  | (k, x) :: r => if py_eqb (VStr k) cid then Some x else lookup_cid r cid
  end.

(** [_positions_list] *)
Definition _positions_list (ch : Chunk) : list val :=
  flat_map (fun o =>
    match o with
    | Some (x0, y0, x1, y1, pg) =>
        [VDict [("bboxPosition",
                 VDict [("bbox", VDict [("x0", VNum x0); ("y0", VNum y0);
                                        ("x1", VNum x1); ("y1", VNum y1)]);
                        ("pageNumber", VNum pg)])]]
    | None => []
    end) ch.(ch_positions).

(** [_build_annotations_for]: the annotation dicts and the citation ids. *)
Definition _build_annotations_for (m : list (string * (Chunk * string * string)))
  (ids : list val) : result (list val * list val) :=
  let* pairs := mapR (fun cid =>
    if negb (hashable cid) then Err unhashable_err else
    match lookup_cid m cid with
    | Some (ch, file_uuid, file_name) =>
        Ok (VDict [("id", cid);
                   ("documentStatement",
                    VDict [("documentId", VStr file_uuid);
                           ("documentName", VStr file_name);
                           ("content", VStr ch.(ch_content));
                           ("positions", VList (_positions_list ch))])], cid)
    | None => Err (KeyError cid)
    end) ids in
  Ok (map fst pairs, map snd pairs).

(** Writing [annotations] and [citation_annotation_ids] into one record. *)
Definition enrich_record (m : list (string * (Chunk * string * string))) (x : val)
  : result val :=
  let* ids := jcids_of x in
  let* ac := _build_annotations_for m ids in
  match x with
  | VDict d => Ok (VDict (dset (dset d "annotations" (VList (fst ac)))
                            "citation_annotation_ids" (VList (snd ac))))
  | _ => Err (AttributeError "__setitem__")
  end.

(** The final write-back into the flow outputs (single, then multi). *)
Definition write_back (m : list (string * (Chunk * string * string)))
  (flow_outputs : list (string * val)) : result (list (string * val)) :=
  let* fo1 :=
    if dmem flow_outputs "final_result" then
      let* fr := enrich_record m (get_or flow_outputs "final_result" (VDict [])) in
      Ok (dset flow_outputs "final_result" fr)
    else Ok flow_outputs in
  if dmem fo1 "answers" then
    let av := get_or fo1 "answers" (VList []) in
    let* items := py_list (py_or av (VList [])) in
    let* items' := mapR (enrich_record m) items in
    match av with
    | VList _ => Ok (dset fo1 "answers" (VList items'))
    | _ => Ok fo1
    end
  else Ok fo1.

(** [_enrich_with_annotations(flow_outputs, source_files)]: the result and
    the interactions with the search service. *)
Definition _enrich_with_annotations (svc : SearchService)
  (flow_outputs : list (string * val)) (source_files : list FileMeta)
  : result (list (string * val)) * list event :=
  match collect_content_ids flow_outputs with
  | Err e => (Err e, [])
  | Ok [] => (Ok flow_outputs, [])
  | Ok content_ids =>
      match dedup [] content_ids with
      | Err e => (Err e, [])
      | Ok unique_content_ids =>
          let trace0 := EvSearchClient :: (if svc.(session_open) then [] else [EvStart]) in
          let '(st, trace) :=
            scan_files svc source_files (mkScan unique_content_ids []) trace0 in
          (match py_sorted st.(remaining) with
           | Err e => Err e
           | Ok [] => write_back st.(chunk_by_content_id) flow_outputs
           | Ok missing =>
               Err (RuntimeError (MUnresolved (length missing)
                                    (length unique_content_ids) (firstn 10 missing)))
           end, trace)
      end
  end.

(** ** [CustomWorkflowActivity._resolve_flow_and_params] *)

Inductive log_entry : Type :=
| LogInfo (m : string)
| LogError (m : string).

(** [k in data] for the parsed JSON value: key membership for dicts,
    element equality for lists, substring for strings; numbers, booleans
    and [None] raise [TypeError]. *)
Definition py_contains (k : string) (data : val) : result bool :=
  match data with
  | VDict d => Ok (dmem d k)
  | VList l => Ok (existsb (py_eqb (VStr k)) l)
  | VStr s => Ok (match split_once k s with Some _ => true | None => false end)
  | _ => Err (TypeError (MText "argument of type is not iterable"))
  end.

Definition parse_error_log : log_entry :=
  LogError "Failed to parse additional_inputs as JSON".

(** What [json.loads] does on a string: it returns a value, raises
    [JSONDecodeError], or raises another exception, such as the
    [RecursionError] of CPython's decoder on deeply nested arrays. *)
Inductive json_outcome : Type :=
| JsonOk (v : val)
| JsonDecodeError
| JsonRaises (e : py_error).

(** [json.loads] is a parameter, as is [FlowLoader.load_by_name]. *)
Section ResolveFlow.
Variable json_loads : string -> json_outcome.
Variable load_by_name : string -> result val.

Definition load_named (workflow_id : string) (additional_params : val)
  (logs : list log_entry) : result (val * val) * list log_entry :=
  let flow_name := if String.eqb workflow_id "" then "qa_default" else workflow_id in
  ((let* flow_dict := load_by_name flow_name in Ok (flow_dict, additional_params)),
   (logs ++ [LogInfo ("Loading named flow: " ++ flow_name)])%list).

Definition _resolve_flow_and_params (workflow_id additional_inputs : string)
  : result (val * val) * list log_entry :=
  if String.eqb additional_inputs "" then load_named workflow_id (VDict []) []
  else
    match json_loads additional_inputs with
    | JsonDecodeError => load_named workflow_id (VDict []) [parse_error_log]
    | JsonRaises e => (Err e, [])
    | JsonOk data =>
        let logs := [LogInfo "Parsed additional_inputs"] in
        match py_contains "flow_id" data with
        | Err e => (Err e, logs)
        | Ok has_flow_id =>
            let inline :=
              if has_flow_id then
                match py_contains "steps" data with
                | Err e => Some (Err e)
                | Ok true => Some (Ok true)
                | Ok false => None
                end
              else None in
            match inline with
            | Some (Err e) => (Err e, logs)
            | Some (Ok _) =>
                (Ok (data, VDict []),
                 (logs ++ [LogInfo "Using inline flow from additional_inputs"])%list)
            | None =>
                load_named workflow_id data
                  (logs ++ [LogInfo "Using additional_inputs as params"])%list
            end
        end
    end.
End ResolveFlow.

(** ** Sanity checks on concrete inputs *)

Definition no_float (_ : string) : option Z := None.

Definition q_of (id text expected : string) : Question :=
  mkQuestion id text expected [].

(** The end-to-end scenario: one document (checksum [c1], id [d1]) with two
    chunks, a final result citing [ch1]. *)
Definition demo_service : SearchService :=
  mkService true (fun cs => if String.eqb cs "c1"
                            then [mkChunk "ch1" "first" []; mkChunk "ch2" "second" []]
                            else []).

Definition demo_outputs : list (string * val) :=
  [("final_result", VDict [("answer", VStr "X"); ("answer_explanation", VStr "E");
                           ("justifying_contents_ids", VList [VStr (_content_id "d1" "ch1")])])].

Example end_to_end_scenario :
  match fst (_enrich_with_annotations demo_service demo_outputs [mkFile "d1" "c1" "doc"]) with
  | Ok fo =>
      match to_question_answers no_float no_float fo [q_of "q" "Q?" "gold"] with
      | Ok [qa] => qa.(qa_sourcedContent) = "[X](cite:" ++ _content_id "d1" "ch1" ++ ")"
                   /\ map ann_content qa.(qa_annotations) = ["first"]
      | _ => False
      end
  | Err _ => False
  end.
Proof. vm_compute. split; reflexivity. Qed.

(** * Properties *)

(** ** Dicts and the error monad *)

Lemma dmem_In (d : list (string * val)) (k : string) :
  dmem d k = true <-> In k (dkeys d).
Proof.
  unfold dmem, dkeys; induction d as [|[k' v] r IH]; simpl.
  - split; [discriminate | tauto].
  - destruct (String.eqb_spec k' k) as [->|Hne].
    + tauto.
    + rewrite <- IH. split; [tauto|]. intros [H|H]; [congruence|exact H].
Qed.

Lemma dmem_false_not_In (d : list (string * val)) (k : string) :
  dmem d k = false <-> ~ In k (dkeys d).
Proof.
  rewrite <- dmem_In. destruct (dmem d k); split; congruence.
Qed.

Lemma missing_of_spec (required : list string) (d : list (string * val)) (f : string) :
  In f (missing_of required d) <-> In f required /\ ~ In f (dkeys d).
Proof.
  unfold missing_of. rewrite filter_In, <- dmem_false_not_In.
  destruct (dmem d f); simpl; intuition congruence.
Qed.

Lemma mapR_idx_app_err {A B} (f : nat -> A -> result B) (i : nat)
  (pre post : list A) (x : A) (ys : list B) (e : py_error) :
  mapR_idx f i pre = Ok ys ->
  f (i + length pre) x = Err e ->
  mapR_idx f i (pre ++ x :: post) = Err e.
Proof.
  revert i ys. induction pre as [|a r IH]; intros i ys Hpre Hx; simpl in *.
  - rewrite Nat.add_0_r in Hx. rewrite Hx. reflexivity.
  - destruct (f i a) as [y|e'] eqn:Hfa; [|discriminate]. simpl in *.
    destruct (mapR_idx f (S i) r) as [ys'|e'] eqn:Hr; [|discriminate].
    rewrite (IH (S i) ys'); [reflexivity|exact Hr|].
    rewrite <- Hx. f_equal. lia.
Qed.

(** A loop fails as soon as one element fails, whatever its index. *)
Lemma mapR_idx_In_err {A B} (f : nat -> A -> result B) (x : A) :
  (forall j, exists e, f j x = Err e) ->
  forall l i, In x l -> exists e, mapR_idx f i l = Err e.
Proof.
  intros Hx l. induction l as [|a r IH]; intros i Hin; [destruct Hin|].
  simpl. destruct Hin as [->|Hin].
  - destruct (Hx i) as [e He]. rewrite He. exists e. reflexivity.
  - destruct (f i a) as [y|e]; simpl.
    + destruct (IH (S i) Hin) as [e He]. rewrite He. exists e. reflexivity.
    + exists e. reflexivity.
Qed.

Lemma mapR_idx_In_ok {A B} (f : nat -> A -> result B) (l : list A) (i : nat)
  (ys : list B) :
  mapR_idx f i l = Ok ys -> forall y, In y ys -> exists j x, In x l /\ f j x = Ok y.
Proof.
  revert i ys. induction l as [|a r IH]; intros i ys H y Hy; simpl in H.
  - injection H as <-. destruct Hy.
  - destruct (f i a) as [y0|e] eqn:Hfa; [|discriminate]. simpl in H.
    destruct (mapR_idx f (S i) r) as [ys'|e] eqn:Hr; [|discriminate].
    injection H as <-. destruct Hy as [<-|Hy].
    + exists i, a. split; [left; reflexivity | exact Hfa].
    + destruct (IH _ _ Hr y Hy) as (j & x & Hx & Hfx).
      exists j, x. split; [right; exact Hx | exact Hfx].
Qed.

(** The message-building steps of the multi-question loop at an element
    that lacks required fields. *)
Lemma handle_answer_missing fl il oq idx r :
  missing_of multi_required r <> [] ->
  handle_answer fl il oq idx (VDict r) =
  Err (ValueError (MMissingFields (Some idx) (missing_of multi_required r))).
Proof.
  intros H. unfold handle_answer.
  destruct (missing_of multi_required r); [congruence|reflexivity].
Qed.

Lemma get_or_VList_dmem (d : list (string * val)) (k : string) (l : list val) :
  get_or d k VNone = VList l -> dmem d k = true.
Proof. unfold get_or, dmem. destruct (dget d k); [reflexivity|discriminate]. Qed.

(** ** C9: unrecognised output format *)

(** C9: an output mapping with neither a [final_result] nor an [answers]
    key is rejected with a [ValueError] reporting the actual top-level keys,
    in their order. *)
Theorem to_question_answers_unrecognized fl il fo oq :
  ~ In "final_result" (dkeys fo) -> ~ In "answers" (dkeys fo) ->
  to_question_answers fl il fo oq = Err (ValueError (MGotKeys (dkeys fo))).
Proof.
  intros Hf Ha. unfold to_question_answers.
  apply dmem_false_not_In in Hf, Ha. rewrite Hf, Ha. reflexivity.
Qed.

Lemma to_question_answers_unrecognized_witness :
  to_question_answers no_float no_float [("foo", VNum 1)] [] =
  Err (ValueError (MGotKeys ["foo"])).
Proof.
  apply (to_question_answers_unrecognized no_float no_float [("foo", VNum 1)] []);
    simpl; intuition discriminate.
Defined.

(** ** C8: missing fields in a multi-question element *)

(** C8 (as amended): in the multi-question shape the elements are checked
    in order and the first failing element stops resolution.  When the
    element at index [length pre] lacks required fields and every earlier
    element passes, the error names that index and exactly the missing
    fields; whenever some element lacks a required field, resolution fails. *)
Theorem multi_question_missing_fields fl il :
  (forall fo oq pre r post qs,
     ~ In "final_result" (dkeys fo) ->
     get_or fo "answers" VNone = VList (pre ++ VDict r :: post) ->
     mapR_idx (handle_answer fl il oq) 0 pre = Ok qs ->
     missing_of multi_required r <> [] ->
     to_question_answers fl il fo oq =
       Err (ValueError (MMissingFields (Some (length pre)) (missing_of multi_required r)))
     /\ (forall f, In f (missing_of multi_required r) <->
                   In f multi_required /\ ~ In f (dkeys r)))
  /\ (forall fo oq l r,
        ~ In "final_result" (dkeys fo) ->
        get_or fo "answers" VNone = VList l ->
        In (VDict r) l ->
        missing_of multi_required r <> [] ->
        exists e, to_question_answers fl il fo oq = Err e).
Proof.
  split.
  - intros fo oq pre r post qs Hf Ha Hpre Hm. split; [|apply missing_of_spec].
    unfold to_question_answers. apply dmem_false_not_In in Hf. rewrite Hf.
    rewrite (get_or_VList_dmem _ _ _ Ha). unfold handle_multi_question. rewrite Ha.
    rewrite (mapR_idx_app_err _ 0 pre post (VDict r) qs
               (ValueError (MMissingFields (Some (length pre)) (missing_of multi_required r)))
               Hpre); [reflexivity|].
    apply handle_answer_missing. exact Hm.
  - intros fo oq l r Hf Ha Hin Hm.
    unfold to_question_answers. apply dmem_false_not_In in Hf. rewrite Hf.
    rewrite (get_or_VList_dmem _ _ _ Ha). unfold handle_multi_question. rewrite Ha.
    destruct (mapR_idx_In_err (handle_answer fl il oq) (VDict r)) with (l := l) (i := 0)
      as [e He]; [|exact Hin|].
    + intros j. exists (ValueError (MMissingFields (Some j) (missing_of multi_required r))).
      apply handle_answer_missing. exact Hm.
    + rewrite He. exists e. reflexivity.
Qed.

Lemma multi_question_missing_fields_witness :
  to_question_answers no_float no_float [("answers", VList [VDict [("id", VStr "q1")]])] [] =
  Err (ValueError (MMissingFields (Some 0)
         ["question"; "answer"; "justifying_contents_ids"; "answer_explanation"])).
Proof.
  destruct (multi_question_missing_fields no_float no_float) as [H _].
  destruct (H [("answers", VList [VDict [("id", VStr "q1")]])] [] [] [("id", VStr "q1")] [] [])
    as [Heq _].
  - simpl. intuition discriminate.
  - reflexivity.
  - reflexivity.
  - vm_compute. discriminate.
  - rewrite Heq. vm_compute. reflexivity.
Defined.

(** C8 as stated fails: with two incomplete elements the error names only
    index 0, not the element at index 1 that also lacks fields. *)
Lemma multi_question_missing_fields_counterexample :
  to_question_answers no_float no_float
    [("answers", VList [VDict [("id", VStr "q1")]; VDict [("id", VStr "q2")]])] [] =
  Err (ValueError (MMissingFields (Some 0)
         ["question"; "answer"; "justifying_contents_ids"; "answer_explanation"]))
  /\ missing_of multi_required [("id", VStr "q2")] <> [].
Proof. split; [vm_compute; reflexivity | vm_compute; discriminate]. Qed.

(** ** Inverting computations in the error monad *)

Ltac inv_ok H :=
  repeat (unfold bind in H;
          match type of H with
          | context [match ?x with _ => _ end] =>
              let E := fresh "E" in destruct x eqn:E; try discriminate H
          end).

Lemma falsy_citations_nil (r : list (string * val)) :
  truthy (get_or r "citation_annotation_ids" VNone) = false ->
  py_or (get_or r "citation_annotation_ids" (VList [])) (VList []) = VList [].
Proof.
  unfold get_or, py_or. destruct (dget r "citation_annotation_ids") as [v|]; simpl.
  - intros ->. reflexivity.
  - reflexivity.
Qed.

(** The citation gate shared by both shapes. *)
Lemma sourced_content_gate (r : list (string * val)) (text : string) (err : py_error) :
  truthy (get_or r "citation_annotation_ids" VNone) = false ->
  sourced_content_of r text err =
  if truthy (get_or r "justifying_contents_ids" VNone) then Err err else Ok text.
Proof.
  intros Hc. unfold sourced_content_of. rewrite (falsy_citations_nil r Hc). simpl.
  destruct (truthy (get_or r "justifying_contents_ids" VNone)); reflexivity.
Qed.

Lemma handle_answer_unresolved fl il oq j r :
  truthy (get_or r "justifying_contents_ids" VNone) = true ->
  truthy (get_or r "citation_annotation_ids" VNone) = false ->
  exists e, handle_answer fl il oq j (VDict r) = Err e.
Proof.
  intros Hj Hc. unfold handle_answer.
  destruct (missing_of multi_required r); [|eexists; reflexivity].
  repeat match goal with
         | |- exists e, (if ?b then _ else _) = Err e => destruct b
         | |- exists e, Err _ = Err e => eexists; reflexivity
         end.
  rewrite (sourced_content_gate r _ _ Hc), Hj. eexists; reflexivity.
Qed.

(** ** C2: the citation linkage check *)

(** C2: an answer record whose [justifying_contents_ids] is non-empty
    (truthy) while [citation_annotation_ids] is missing or empty makes
    resolution fail, in the single-question shape and for any element of
    the multi-question list; with empty [justifying_contents_ids] the check
    passes without any citation ids, and minimal records resolve. *)
Theorem citation_linkage_required fl il :
  (forall fo oq fr,
     In "final_result" (dkeys fo) ->
     get_or fo "final_result" VNone = VDict fr ->
     truthy (get_or fr "justifying_contents_ids" VNone) = true ->
     truthy (get_or fr "citation_annotation_ids" VNone) = false ->
     exists e, to_question_answers fl il fo oq = Err e)
  /\ (forall fo oq l r,
        ~ In "final_result" (dkeys fo) ->
        get_or fo "answers" VNone = VList l ->
        In (VDict r) l ->
        truthy (get_or r "justifying_contents_ids" VNone) = true ->
        truthy (get_or r "citation_annotation_ids" VNone) = false ->
        exists e, to_question_answers fl il fo oq = Err e)
  /\ (forall r text err,
        get_or r "justifying_contents_ids" VNone = VList [] ->
        truthy (get_or r "citation_annotation_ids" VNone) = false ->
        sourced_content_of r text err = Ok text)
  /\ (forall a x q qs,
        to_question_answers fl il
          [("final_result", VDict [("answer", VStr a); ("justifying_contents_ids", VList []);
                                   ("answer_explanation", VStr x)])] (q :: qs) =
        Ok [mkQA q.(q_id) q.(q_question) q.(q_expectedAnswer) a x 1 "" []
              q.(q_inputQuestionIds)])
  /\ (forall i t a x qs,
        to_question_answers fl il
          [("answers", VList [VDict [("id", VStr i); ("question", VStr t); ("answer", VStr a);
                                     ("justifying_contents_ids", VList []);
                                     ("answer_explanation", VStr x)]])] qs =
        Ok [mkQA i t (match questions_by_id qs i with
                      | Some q => q.(q_expectedAnswer) | None => "" end)
              a x 1 "" [] []]).
Proof.
  split; [|split; [|split; [|split]]].
  - intros fo oq fr Hin Hfr Hj Hc. unfold to_question_answers.
    apply dmem_In in Hin. rewrite Hin. unfold handle_single_question. rewrite Hfr.
    destruct fr as [|kv fr']; [eexists; reflexivity|].
    destruct (missing_of single_required (kv :: fr')); [|eexists; reflexivity].
    repeat match goal with
           | |- exists e, (if ?b then _ else _) = Err e => destruct b
           | |- exists e, Err _ = Err e => eexists; reflexivity
           end.
    destruct oq; [eexists; reflexivity|].
    rewrite (sourced_content_gate _ _ _ Hc), Hj. eexists; reflexivity.
  - intros fo oq l r Hf Ha Hin Hj Hc. unfold to_question_answers.
    apply dmem_false_not_In in Hf. rewrite Hf.
    rewrite (get_or_VList_dmem _ _ _ Ha). unfold handle_multi_question. rewrite Ha.
    destruct (mapR_idx_In_err (handle_answer fl il oq) (VDict r)) with (l := l) (i := 0)
      as [e He].
    + intros j. apply handle_answer_unresolved; assumption.
    + exact Hin.
    + rewrite He. exists e. reflexivity.
  - intros r text err Hj Hc. rewrite (sourced_content_gate _ _ _ Hc), Hj. reflexivity.
  - intros a x q qs. reflexivity.
  - intros i t a x qs. unfold to_question_answers, handle_multi_question, handle_answer.
    simpl. destruct (questions_by_id qs i); reflexivity.
Qed.

Definition c2_single_outputs : list (string * val) :=
  [("final_result", VDict [("answer", VStr "A"); ("justifying_contents_ids", VList [VStr "x"]);
                           ("answer_explanation", VStr "E")])].

Definition c2_multi_element : list (string * val) :=
  [("id", VStr "q1"); ("question", VStr "Q"); ("answer", VStr "A");
   ("justifying_contents_ids", VList [VStr "x"]); ("answer_explanation", VStr "E")].

Lemma citation_linkage_required_witness :
  (exists e, to_question_answers no_float no_float c2_single_outputs [q_of "q1" "Q" "g"] = Err e)
  /\ (exists e, to_question_answers no_float no_float
                  [("answers", VList [VDict c2_multi_element])] [q_of "q1" "Q" "g"] = Err e)
  /\ sourced_content_of [("justifying_contents_ids", VList [])] "A"
       (ValueError (MText missing_citation_msg)) = Ok "A".
Proof.
  destruct (citation_linkage_required no_float no_float) as [H1 [H2 [H3 _]]].
  split; [|split].
  - apply (H1 c2_single_outputs [q_of "q1" "Q" "g"]
             [("answer", VStr "A"); ("justifying_contents_ids", VList [VStr "x"]);
              ("answer_explanation", VStr "E")]);
      simpl; tauto.
  - apply (H2 [("answers", VList [VDict c2_multi_element])] [q_of "q1" "Q" "g"]
             [VDict c2_multi_element] c2_multi_element);
      simpl; intuition discriminate.
  - apply H3; reflexivity.
Defined.

(** ** C1: where [expectedAnswer] comes from *)

(** The expected answer a resolved multi-question element carries: its own
    [expected_answer] when that is a non-empty string, else the one of the
    original question with the same id, else empty. *)
Definition multi_expected_answer (oq : list Question) (r : list (string * val)) : string :=
  let from_question :=
    match questions_by_id oq (str_of (get_or r "id" VNone)) with
    | Some q => q.(q_expectedAnswer)
    | None => ""
    end in
  match get_or r "expected_answer" (VStr "") with
  | VStr s => if String.eqb s "" then from_question else s
  | _ => from_question
  end.

Lemma handle_single_question_ok fl il fo oq qas :
  handle_single_question fl il fo oq = Ok qas ->
  exists q rest qa, oq = q :: rest /\ qas = [qa] /\
    qa.(qa_id) = q.(q_id) /\ qa.(qa_question) = q.(q_question) /\
    qa.(qa_expectedAnswer) = q.(q_expectedAnswer).
Proof.
  intros H. unfold handle_single_question in H. inv_ok H.
  injection H as <-. eexists _, _, _. repeat split; reflexivity.
Qed.

Lemma handle_answer_ok fl il oq j x qa :
  handle_answer fl il oq j x = Ok qa ->
  exists r, x = VDict r /\
    qa.(qa_id) = str_of (get_or r "id" VNone) /\
    qa.(qa_question) = str_of (get_or r "question" VNone) /\
    qa.(qa_expectedAnswer) = multi_expected_answer oq r.
Proof.
  intros H. unfold handle_answer in H. inv_ok H.
  injection H as <-. eexists. split; [reflexivity|]. split; [reflexivity|].
  split; [reflexivity|]. simpl. unfold multi_expected_answer.
  clear - E9.
  destruct (get_or d "expected_answer" (VStr "")) as [|b|z|s|l|dd];
  destruct (questions_by_id oq (str_of (get_or d "id" VNone))) as [q|];
  simpl in E9 |- *;
  try (destruct b; simpl in E9); try (destruct (z =? 0)%Z; simpl in E9);
  try (destruct (String.eqb_spec s ""); subst; simpl in E9 |- *); try (destruct l; simpl in E9);
  try (destruct dd; simpl in E9); congruence.
Qed.

(** ** The stable sort *)

Section SortByKeyFacts.
Context {A : Type} (key : A -> Z).

Lemma insert_by_perm (x : A) (l : list A) : Permutation (insert_by key x l) (x :: l).
Proof.
  induction l as [|y r IH]; simpl; [reflexivity|].
  destruct (key x <=? key y)%Z; [reflexivity|].
  rewrite IH. apply perm_swap.
Qed.

Lemma sort_by_perm (l : list A) : Permutation (sort_by key l) l.
Proof.
  induction l as [|x r IH]; simpl; [reflexivity|].
  rewrite insert_by_perm, IH. reflexivity.
Qed.

Definition key_le (a b : A) : Prop := (key a <= key b)%Z.

Lemma insert_by_sorted (x : A) (l : list A) :
  StronglySorted key_le l -> StronglySorted key_le (insert_by key x l).
Proof.
  induction l as [|y r IH]; intros Hs; simpl.
  - repeat constructor.
  - inversion Hs as [|? ? Hr Hall]; subst.
    destruct (key x <=? key y)%Z eqn:Hxy.
    + apply Z.leb_le in Hxy. constructor; [exact Hs|].
      constructor; [exact Hxy|].
      eapply Forall_impl; [|exact Hall]. unfold key_le. intros a Ha. lia.
    + apply Z.leb_gt in Hxy. constructor; [apply IH, Hr|].
      apply (Permutation_Forall (Permutation_sym (insert_by_perm x r))).
      constructor; [unfold key_le; lia | exact Hall].
Qed.

Lemma sort_by_sorted (l : list A) : StronglySorted key_le (sort_by key l).
Proof.
  induction l as [|x r IH]; simpl; [constructor|]. apply insert_by_sorted, IH.
Qed.

(** Stability: among elements of equal key the input order is kept. *)
Lemma filter_insert_by (k : Z) (x : A) (l : list A) :
  filter (fun a => key a =? k)%Z (insert_by key x l) =
  if (key x =? k)%Z then x :: filter (fun a => key a =? k)%Z l
  else filter (fun a => key a =? k)%Z l.
Proof.
  induction l as [|y r IH]; simpl.
  - destruct (key x =? k)%Z; reflexivity.
  - destruct (key x <=? key y)%Z eqn:Hxy; simpl; [reflexivity|].
    rewrite IH. apply Z.leb_gt in Hxy.
    destruct (key y =? k)%Z eqn:Hy, (key x =? k)%Z eqn:Hx; try reflexivity.
    apply Z.eqb_eq in Hx, Hy. lia.
Qed.

Lemma filter_sort_by (k : Z) (l : list A) :
  filter (fun a => key a =? k)%Z (sort_by key l) = filter (fun a => key a =? k)%Z l.
Proof.
  induction l as [|x r IH]; simpl; [reflexivity|].
  rewrite filter_insert_by, IH. reflexivity.
Qed.

(** With keys bounded below by [-1], a sorted list puts the [-1] keys first. *)
Lemma sorted_sentinel_first (l : list A) :
  StronglySorted key_le l -> (forall a, In a l -> -1 <= key a)%Z ->
  l = (filter (fun a => key a =? -1)%Z l ++ filter (fun a => negb (key a =? -1))%Z l)%list.
Proof.
  induction 1 as [|a r Hr IH Hall]; intros Hb; simpl; [reflexivity|].
  destruct (key a =? -1)%Z eqn:Ha; simpl.
  - f_equal. apply IH. intros b Hb'. apply Hb. right. exact Hb'.
  - apply Z.eqb_neq in Ha. assert (Ha' : (-1 < key a)%Z) by (specialize (Hb a (or_introl eq_refl)); lia).
    rewrite Forall_forall in Hall. unfold key_le in Hall.
    rewrite (filter_ext_in (fun b => key b =? -1)%Z (fun _ => false) r),
            (filter_ext_in (fun b => negb (key b =? -1))%Z (fun _ => true) r),
            filter_false, filter_true; [reflexivity| |];
      intros b Hb'; specialize (Hall b Hb');
      [destruct (Z.eqb_spec (key b) (-1)); simpl; [lia|reflexivity]
      |destruct (Z.eqb_spec (key b) (-1)); [lia|reflexivity]].
Qed.
End SortByKeyFacts.

Lemma multi_question_ok fl il fo oq raws qas :
  ~ In "final_result" (dkeys fo) ->
  get_or fo "answers" VNone = VList raws ->
  to_question_answers fl il fo oq = Ok qas ->
  exists built, mapR_idx (handle_answer fl il oq) 0 raws = Ok built /\
    qas = sort_by (fun a => get_question_index a.(qa_question) oq) built.
Proof.
  intros Hf Ha H. unfold to_question_answers in H.
  apply dmem_false_not_In in Hf. rewrite Hf, (get_or_VList_dmem _ _ _ Ha) in H.
  unfold handle_multi_question in H. rewrite Ha in H.
  destruct (mapR_idx (handle_answer fl il oq) 0 raws) as [built|e]; [|discriminate].
  injection H as <-. exists built. split; reflexivity.
Qed.

(** C1, what the code does: in the single-question shape the answer's
    [expectedAnswer] is that of [original_questions[0]]; in the
    multi-question shape it is the element's own [expected_answer] when that
    is a non-empty string, otherwise that of the original question with the
    element's id (empty when none matches). *)
Theorem expected_answer_source fl il :
  (forall fo oq qas,
     In "final_result" (dkeys fo) ->
     to_question_answers fl il fo oq = Ok qas ->
     exists q rest, oq = q :: rest /\ map qa_expectedAnswer qas = [q.(q_expectedAnswer)])
  /\ (forall fo oq raws qas,
        ~ In "final_result" (dkeys fo) ->
        get_or fo "answers" VNone = VList raws ->
        to_question_answers fl il fo oq = Ok qas ->
        forall qa, In qa qas ->
          exists r, In (VDict r) raws /\ qa.(qa_id) = str_of (get_or r "id" VNone) /\
                    qa.(qa_expectedAnswer) = multi_expected_answer oq r).
Proof.
  split.
  - intros fo oq qas Hin H. unfold to_question_answers in H.
    apply dmem_In in Hin. rewrite Hin in H.
    destruct (handle_single_question_ok _ _ _ _ _ H)
      as (q & rest & qa & -> & -> & _ & _ & He).
    exists q, rest. split; [reflexivity|]. simpl. rewrite He. reflexivity.
  - intros fo oq raws qas Hf Ha H qa Hqa.
    destruct (multi_question_ok _ _ _ _ _ _ Hf Ha H) as (built & Hb & ->).
    apply (Permutation_in _ (sort_by_perm _ built)) in Hqa.
    destruct (mapR_idx_In_ok _ _ _ _ Hb qa Hqa) as (j & x & Hx & Hj).
    destruct (handle_answer_ok _ _ _ _ _ _ Hj) as (r & -> & Hid & _ & He).
    exists r. split; [exact Hx|]. split; assumption.
Qed.

Definition c4_element (id text : string) : val :=
  VDict [("id", VStr id); ("question", VStr text); ("answer", VStr "A");
         ("justifying_contents_ids", VList []); ("answer_explanation", VStr "E")].

Definition c1_outputs : list (string * val) :=
  [("answers", VList [VDict [("id", VStr "q1"); ("question", VStr "Q1"); ("answer", VStr "A");
                             ("justifying_contents_ids", VList []);
                             ("answer_explanation", VStr "E");
                             ("expected_answer", VStr "from the flow")]])].

Lemma expected_answer_source_witness :
  exists r, In (VDict r) [VDict [("id", VStr "q1"); ("question", VStr "Q1");
                                 ("answer", VStr "A"); ("justifying_contents_ids", VList []);
                                 ("answer_explanation", VStr "E")]] /\
            multi_expected_answer [q_of "q1" "Q1" "gold"] r = "gold" /\
            exists q rest, [q_of "q1" "Q1" "gold"] = q :: rest /\
              map qa_expectedAnswer [mkQA "q1" "Q1" "gold" "A" "E" 1 "" [] []] =
              [q.(q_expectedAnswer)].
Proof.
  destruct (expected_answer_source no_float no_float) as [H1 H2].
  destruct (H2 [("answers", VList [c4_element "q1" "Q1"])] [q_of "q1" "Q1" "gold"]
              [c4_element "q1" "Q1"] [mkQA "q1" "Q1" "gold" "A" "E" 1 "" [] []])
    with (qa := mkQA "q1" "Q1" "gold" "A" "E" 1 "" [] [])
    as (r & Hr & _ & He).
  - simpl. intuition discriminate.
  - reflexivity.
  - vm_compute. reflexivity.
  - left. reflexivity.
  - exists r. split; [exact Hr|]. split; [rewrite <- He; reflexivity|].
    apply (H1 [("final_result", VDict [("answer", VStr "A");
                                        ("justifying_contents_ids", VList []);
                                        ("answer_explanation", VStr "E")])]
              [q_of "q1" "Q1" "gold"]).
    + left. reflexivity.
    + vm_compute. reflexivity.
Defined.

(** C1 as stated fails: in the multi-question shape an [expected_answer]
    supplied by the flow output wins over the caller's expected answer. *)
Lemma expected_answer_source_counterexample :
  to_question_answers no_float no_float c1_outputs [q_of "q1" "Q1" "gold"] =
  Ok [mkQA "q1" "Q1" "from the flow" "A" "E" 1 "" [] []].
Proof. vm_compute. reflexivity. Qed.

(** ** C4: ordering of multi-question answers *)

(** [k] is the position of the first question with text [t], or [-1]
    when no question has that text. *)
Definition question_position (t : string) (oq : list Question) (k : Z) : Prop :=
  (k = (-1)%Z /\ forall q, In q oq -> q.(q_question) <> t) \/
  (exists n q, k = Z.of_nat n /\ nth_error oq n = Some q /\ q.(q_question) = t /\
     forall m q', (m < n)%nat -> nth_error oq m = Some q' -> q'.(q_question) <> t).

Lemma get_question_index_from_spec (t : string) (l : list Question) (i : Z) :
  (0 <= i)%Z ->
  (get_question_index_from i t l = (-1)%Z /\ forall q, In q l -> q.(q_question) <> t) \/
  (exists n q, get_question_index_from i t l = (i + Z.of_nat n)%Z /\
     nth_error l n = Some q /\ q.(q_question) = t /\
     forall m q', (m < n)%nat -> nth_error l m = Some q' -> q'.(q_question) <> t).
Proof.
  revert i. induction l as [|q r IH]; intros i Hi; simpl.
  - left. split; [reflexivity | intros q []].
  - destruct (String.eqb_spec (q_question q) t) as [Heq|Hne].
    + right. exists O, q. split; [lia|]. split; [reflexivity|]. split; [exact Heq|].
      intros m q' Hm. lia.
    + destruct (IH (i + 1)%Z ltac:(lia)) as [[H1 H2]|(n & q' & H1 & H2 & H3 & H4)].
      * left. split; [exact H1|]. intros q0 [<-|Hq0]; [exact Hne | apply H2, Hq0].
      * right. exists (S n), q'. split; [rewrite H1; lia|]. split; [exact H2|].
        split; [exact H3|]. intros [|m] q0 Hm Hq0; simpl in Hq0.
        -- injection Hq0 as <-. exact Hne.
        -- apply (H4 m); [lia | exact Hq0].
Qed.

Lemma get_question_index_spec (t : string) (oq : list Question) :
  question_position t oq (get_question_index t oq).
Proof.
  unfold question_position, get_question_index.
  destruct (get_question_index_from_spec t oq 0 ltac:(lia))
    as [H|(n & q & H1 & H2)]; [left; exact H | right; exists n, q; split; [lia | exact H2]].
Qed.

Lemma get_question_index_ge (t : string) (oq : list Question) :
  (-1 <= get_question_index t oq)%Z.
Proof.
  destruct (get_question_index_spec t oq) as [[-> _]|(n & q & -> & _)]; lia.
Qed.

Definition answer_key (oq : list Question) (a : QuestionAnswer) : Z :=
  get_question_index a.(qa_question) oq.

(** What the multi-question resolution returns, relative to the answers
    [built] from the raw elements in their order: a stable sort of them by
    the position of their question text, [-1] answers first. *)
Definition ordered_resolution (oq : list Question) (built qas : list QuestionAnswer)
  : Prop :=
  Permutation qas built /\
  (forall a, In a qas -> question_position a.(qa_question) oq (answer_key oq a)) /\
  StronglySorted (key_le (answer_key oq)) qas /\
  (forall k, filter (fun a => answer_key oq a =? k)%Z qas =
             filter (fun a => answer_key oq a =? k)%Z built) /\
  qas = (filter (fun a => answer_key oq a =? -1)%Z built ++
         filter (fun a => negb (answer_key oq a =? -1))%Z qas)%list.

(** C4: multi-question answers are sorted by the position of their question
    text in [original_questions]; the sort is stable, and answers whose text
    matches no question take the sentinel [-1], so they come first, in
    their original relative order. *)
Theorem multi_question_ordering fl il fo oq raws qas :
  ~ In "final_result" (dkeys fo) ->
  get_or fo "answers" VNone = VList raws ->
  to_question_answers fl il fo oq = Ok qas ->
  exists built, mapR_idx (handle_answer fl il oq) 0 raws = Ok built /\
                ordered_resolution oq built qas.
Proof.
  intros Hf Ha H.
  destruct (multi_question_ok _ _ _ _ _ _ Hf Ha H) as (built & Hb & ->).
  exists built. split; [exact Hb|].
  change (fun a => get_question_index (qa_question a) oq) with (answer_key oq).
  unfold ordered_resolution.
  split; [apply sort_by_perm|]. split; [intros a _; apply get_question_index_spec|].
  split; [apply sort_by_sorted|]. split; [intros k; apply filter_sort_by|].
  rewrite <- (filter_sort_by (answer_key oq) (-1)%Z built).
  apply sorted_sentinel_first; [apply sort_by_sorted|].
  intros a _. apply get_question_index_ge.
Qed.

Definition c4_outputs : list (string * val) :=
  [("answers", VList [c4_element "q3" "Q3"; c4_element "q1" "Q1"; c4_element "q2" "Q2"])].

Definition c4_questions : list Question :=
  [q_of "q1" "Q1" ""; q_of "q2" "Q2" ""; q_of "q3" "Q3" ""].

Lemma multi_question_ordering_witness :
  map qa_id (match to_question_answers no_float no_float c4_outputs c4_questions with
             | Ok qas => qas | Err _ => [] end) = ["q1"; "q2"; "q3"] /\
  exists built, ordered_resolution c4_questions built
    (match to_question_answers no_float no_float c4_outputs c4_questions with
     | Ok qas => qas | Err _ => [] end).
Proof.
  split; [vm_compute; reflexivity|].
  destruct (multi_question_ordering no_float no_float c4_outputs c4_questions
              [c4_element "q3" "Q3"; c4_element "q1" "Q1"; c4_element "q2" "Q2"]
              (match to_question_answers no_float no_float c4_outputs c4_questions with
               | Ok qas => qas | Err _ => [] end)) as (built & _ & Hord).
  - simpl. intuition discriminate.
  - reflexivity.
  - vm_compute. reflexivity.
  - exists built. exact Hord.
Defined.

(** ** C5: content-id derivation *)

Lemma join_injective (d1 c1 d2 c2 : string) :
  count_char ":" d1 = O -> count_char ":" d2 = O ->
  (d1 ++ ":" ++ c1)%string = (d2 ++ ":" ++ c2)%string -> d1 = d2 /\ c1 = c2.
Proof.
  revert d2. induction d1 as [|a r IH]; intros [|b r2] H1 H2 Heq; cbn [append] in Heq.
  - injection Heq as ->. split; reflexivity.
  - injection Heq as <- _. simpl in H2. discriminate H2.
  - injection Heq as -> _. simpl in H1. discriminate H1.
  - injection Heq as <- Heq.
    change (count_char ":" (String a r)) with
      ((if Ascii.eqb ":" a then 1 else 0) + count_char ":" r)%nat in H1.
    change (count_char ":" (String a r2)) with
      ((if Ascii.eqb ":" a then 1 else 0) + count_char ":" r2)%nat in H2.
    destruct (Ascii.eqb ":" a); [lia|]. simpl in H1, H2.
    destruct (IH r2 H1 H2 Heq) as [-> ->]. split; reflexivity.
Qed.

Lemma count_char_app (c : ascii) (s t : string) :
  count_char c (s ++ t) = (count_char c s + count_char c t)%nat.
Proof. induction s as [|a r IH]; simpl; [reflexivity|]. rewrite IH. lia. Qed.

(** C5 (as amended): the content id is a function of the joined string
    [doc ++ ":" ++ chunk] alone, so pairs with the same joined string share
    their id; for document ids without [':'] (the case of bare UUIDs and of
    their entity-descriptor encoding) distinct pairs give distinct uuid5
    inputs. *)
Theorem content_id_derivation :
  (forall d c, _content_id d c = Uuid.uuid5 Uuid.NAMESPACE_OID (d ++ ":" ++ c))
  /\ (forall d1 c1 d2 c2, (d1 ++ ":" ++ c1)%string = (d2 ++ ":" ++ c2)%string ->
        _content_id d1 c1 = _content_id d2 c2)
  /\ (forall d1 c1 d2 c2, count_char ":" d1 = O -> count_char ":" d2 = O ->
        (d1, c1) <> (d2, c2) -> (d1 ++ ":" ++ c1)%string <> (d2 ++ ":" ++ c2)%string)
  /\ (forall u, count_char ":" u = O -> count_char ":" (entity_of u) = O).
Proof.
  split; [reflexivity|]. split.
  - intros d1 c1 d2 c2 H. unfold _content_id. rewrite H. reflexivity.
  - split.
    + intros d1 c1 d2 c2 H1 H2 Hne Heq.
      destruct (join_injective _ _ _ _ H1 H2 Heq) as [-> ->]. apply Hne. reflexivity.
    + intros u Hu. unfold entity_of. rewrite !count_char_app, Hu. reflexivity.
Qed.

Lemma content_id_derivation_witness :
  ("d1" ++ ":" ++ "ch1")%string <> ("d2" ++ ":" ++ "ch1")%string /\
  count_char ":" (entity_of "d1") = O /\
  _content_id "x:y" "z" = _content_id "x" "y:z".
Proof.
  destruct content_id_derivation as (_ & H2 & H3 & H4).
  split; [|split].
  - apply H3; [reflexivity | reflexivity | congruence].
  - apply H4. reflexivity.
  - apply H2. reflexivity.
Defined.

(** C5 as stated fails: two distinct pairs with the same joined string get
    the same content id. *)
Lemma content_id_derivation_counterexample :
  ("a:b", "c") <> ("a", "b:c") /\ _content_id "a:b" "c" = _content_id "a" "b:c".
Proof. split; [congruence | unfold _content_id; f_equal]. Qed.

(** ** C10: unparsable [additional_inputs] *)

(** C10: when [additional_inputs] is non-empty and [json.loads] raises
    [JSONDecodeError] on it, resolution goes on exactly as without
    additional inputs (the named flow [workflow_id], or [qa_default], with
    no additional parameters); the parse error only adds a log entry. Any
    other exception [json.loads] raises on it is not caught: resolution
    fails with that exception, logs nothing and loads no flow. *)
Theorem resolve_flow_unparsable_inputs json_loads load_by_name workflow_id s :
  s <> ""%string ->
  (json_loads s = JsonDecodeError ->
   _resolve_flow_and_params json_loads load_by_name workflow_id s =
     (fst (_resolve_flow_and_params json_loads load_by_name workflow_id ""),
      parse_error_log :: snd (_resolve_flow_and_params json_loads load_by_name workflow_id ""))
   /\ fst (_resolve_flow_and_params json_loads load_by_name workflow_id "") =
      (let* flow_dict :=
         load_by_name (if String.eqb workflow_id "" then "qa_default" else workflow_id) in
       Ok (flow_dict, VDict []))) /\
  (forall e, json_loads s = JsonRaises e ->
   _resolve_flow_and_params json_loads load_by_name workflow_id s = (Err e, []) /\
   forall load_by_name',
     _resolve_flow_and_params json_loads load_by_name' workflow_id s =
     _resolve_flow_and_params json_loads load_by_name workflow_id s).
Proof.
  intros Hs.
  assert (Hne : String.eqb s "" = false) by (apply String.eqb_neq; exact Hs).
  split.
  - intros Hj. split; [|reflexivity].
    unfold _resolve_flow_and_params. rewrite Hne, Hj. reflexivity.
  - intros e Hj. unfold _resolve_flow_and_params. rewrite Hne, Hj. split; reflexivity.
Qed.

Definition demo_json_loads (s : string) : json_outcome :=
  if String.eqb s "{not json" then JsonDecodeError else JsonOk (VDict []).

Lemma resolve_flow_unparsable_inputs_witness :
  _resolve_flow_and_params demo_json_loads (fun _ => Ok (VDict [])) "" "{not json" =
    (Ok (VDict [], VDict []),
     [parse_error_log; LogInfo "Loading named flow: qa_default"]).
Proof.
  destruct (resolve_flow_unparsable_inputs demo_json_loads (fun _ => Ok (VDict [])) ""
              "{not json") as [H _].
  - discriminate.
  - destruct H as [H _].
    + reflexivity.
    + rewrite H. reflexivity.
Defined.

(** The text ['[' * 100000]: a hundred thousand opening brackets, which
    is not JSON. *)
Definition deep_brackets : string :=
  Pos.iter (String "["%char) EmptyString 100000%positive.

(** The exception CPython's [json.loads] raises on [deep_brackets]: its
    decoder recurses once per nested array and hits the recursion limit
    before it reaches the end of the text. *)
Definition deep_brackets_error : py_error :=
  RecursionError "maximum recursion depth exceeded while decoding a JSON array from a unicode string".

(** [json.loads] as it behaves on [deep_brackets], the one text the
    counterexample below passes to it. *)
Definition loads_deep_brackets (s : string) : json_outcome :=
  if String.eqb s deep_brackets then JsonRaises deep_brackets_error else JsonDecodeError.

(** C10 as stated fails: on the non-empty, non-JSON text [deep_brackets]
    resolution raises [RecursionError] instead of falling back to the
    named flow, although that flow loads. *)
Lemma resolve_flow_unparsable_inputs_counterexample :
  deep_brackets <> ""%string /\
  _resolve_flow_and_params loads_deep_brackets (fun _ => Ok (VDict [])) "" deep_brackets =
    (Err deep_brackets_error, []) /\
  fst (_resolve_flow_and_params loads_deep_brackets (fun _ => Ok (VDict [])) "" "") =
    Ok (VDict [], VDict []).
Proof.
  assert (Hd : deep_brackets =
               String "["%char (Pos.iter (String "["%char) EmptyString 99999%positive)).
  { unfold deep_brackets. change 100000%positive with (Pos.succ 99999). apply Pos.iter_succ. }
  assert (Hn : String.eqb deep_brackets "" = false) by (rewrite Hd; reflexivity).
  assert (Hl : loads_deep_brackets deep_brackets = JsonRaises deep_brackets_error).
  { unfold loads_deep_brackets. rewrite String.eqb_refl. reflexivity. }
  split; [|split].
  - rewrite Hd. discriminate.
  - unfold _resolve_flow_and_params. rewrite Hn, Hl. reflexivity.
  - reflexivity.
Qed.

(** ** C7: no-op enrichment *)

(** A record that references no content: a dict whose
    [justifying_contents_ids] is absent or falsy. *)
Definition no_refs (x : val) : Prop :=
  exists d, x = VDict d /\ truthy (get_or d "justifying_contents_ids" (VList [])) = false.

Lemma jcids_of_no_refs (x : val) : no_refs x -> jcids_of x = Ok [].
Proof.
  intros (d & -> & Hj). unfold jcids_of, dict_get, bind, py_or. rewrite Hj. reflexivity.
Qed.

Lemma mapR_jcids_no_refs (l : list val) :
  Forall no_refs l -> exists per, mapR jcids_of l = Ok per /\ concat per = [].
Proof.
  induction 1 as [|x r Hx _ IH]; [exists []; split; reflexivity|].
  destruct IH as (per & Hper & Hc).
  exists ([] :: per). simpl. rewrite (jcids_of_no_refs x Hx). simpl. rewrite Hper.
  split; [reflexivity | exact Hc].
Qed.

(** C7: when the single-question [final_result] (if present) and every
    element of the multi-question [answers] list (if present) reference no
    content ids, enrichment returns the outputs unchanged and the search
    service sees no interaction at all (not even the client's creation). *)
Theorem enrich_noop_without_references (svc : SearchService)
  (flow_outputs : list (string * val)) (source_files : list FileMeta) :
  (forall fr, dget flow_outputs "final_result" = Some fr -> no_refs fr) ->
  (forall av, dget flow_outputs "answers" = Some av ->
     truthy av = false \/ exists l, av = VList l /\ Forall no_refs l) ->
  _enrich_with_annotations svc flow_outputs source_files = (Ok flow_outputs, []).
Proof.
  intros Hfr Hans.
  assert (Hc : collect_content_ids flow_outputs = Ok []).
  { unfold collect_content_ids, dmem, get_or.
    destruct (dget flow_outputs "final_result") as [fr|] eqn:Efr.
    - apply jcids_of_no_refs, Hfr. reflexivity.
    - cbn [bind]. destruct (dget flow_outputs "answers") as [av|] eqn:Ea; [|reflexivity].
      destruct (Hans av eq_refl) as [Hf | (l & -> & Hl)].
      + unfold bind, py_or. rewrite Hf. reflexivity.
      + destruct (mapR_jcids_no_refs l Hl) as (per & Hper & Hcat).
        assert (Hp : py_list (py_or (VList l) (VList [])) = Ok l)
          by (destruct l; reflexivity).
        unfold bind. rewrite Hp, Hper, Hcat. reflexivity. }
  unfold _enrich_with_annotations. rewrite Hc. reflexivity.
Qed.

Definition c7_outputs : list (string * val) :=
  [("answers", VList [VDict [("id", VStr "q1"); ("justifying_contents_ids", VList [])];
                      VDict [("id", VStr "q2")]]);
   ("final_result", VDict [("answer", VStr "A"); ("justifying_contents_ids", VNone)])].

Lemma enrich_noop_without_references_witness :
  _enrich_with_annotations demo_service c7_outputs
    [mkFile "d1" "sum1" "doc.pdf"] = (Ok c7_outputs, []).
Proof.
  apply enrich_noop_without_references.
  - intros fr Hfr. simpl in Hfr. injection Hfr as <-.
    eexists; split; [reflexivity | reflexivity].
  - intros av Hav. simpl in Hav. injection Hav as <-. right.
    eexists; split; [reflexivity|].
    repeat constructor; eexists; (split; [reflexivity | reflexivity]).
Defined.

(** ** The scan loops: which content ids stay in [remaining] *)

(** [cid] is produced for chunk [ch] under one of the candidate document ids. *)
Definition chunk_matches (cands : list string) (ch : Chunk) (x : val) : bool :=
  negb (String.eqb ch.(ch_id) "") &&
  existsb (fun v => py_eqb (VStr (_content_id v ch.(ch_id))) x) cands.

(** [x] is produced by some chunk of the usable source document [f]. *)
Definition file_matches (svc : SearchService) (f : FileMeta) (x : val) : bool :=
  negb (String.eqb f.(f_id) "") && negb (String.eqb f.(f_checksum) "") &&
  existsb (fun ch => chunk_matches (_doc_id_variants f.(f_id)) ch x)
    (svc.(get_document_chunks) f.(f_checksum)).

Definition matched (svc : SearchService) (files : list FileMeta) (x : val) : bool :=
  existsb (fun f => file_matches svc f x) files.

Lemma filter_filter_andb {A} (p q : A -> bool) (l : list A) :
  filter q (filter p l) = filter (fun x => p x && q x) l.
Proof.
  induction l as [|x r IH]; simpl; [reflexivity|].
  destruct (p x); simpl; [destruct (q x)|]; rewrite ?IH; reflexivity.
Qed.

Lemma filter_nil_mono {A} (p q : A -> bool) (l : list A) :
  filter p l = [] -> (forall x, q x = true -> p x = true) -> filter q l = [].
Proof.
  intros Hp Hq. induction l as [|x r IH]; simpl in *; [reflexivity|].
  destruct (p x) eqn:E; [discriminate|].
  destruct (q x) eqn:F; [rewrite (Hq x F) in E; discriminate | exact (IH Hp)].
Qed.

Lemma filter_all {A} (p : A -> bool) (l : list A) :
  (forall x, In x l -> p x = true) -> filter p l = l.
Proof.
  intros H. induction l as [|x r IH]; simpl; [reflexivity|].
  rewrite (H x (or_introl eq_refl)), IH; [reflexivity|]. intros y Hy. apply H. now right.
Qed.

(** One loop iteration that filters [rem] by [p], possibly stopping when
    nothing remains, and then filters by [q]. *)
Lemma loop_step {A} (p q : A -> bool) (rem res : list A) :
  (filter p rem = [] /\ res = [] \/ res = filter q (filter p rem)) ->
  res = filter (fun x => p x && q x) rem.
Proof.
  intros [[Hn ->] | ->].
  - symmetry. apply (filter_nil_mono p); [exact Hn|].
    intros x Hx. apply andb_prop in Hx. tauto.
  - apply filter_filter_andb.
Qed.

Lemma scan_candidates_remaining (f : FileMeta) (ch : Chunk) (cands : list string)
  (st : scan_state) :
  remaining (scan_candidates f ch cands st) =
  filter (fun x => negb (existsb (fun v => py_eqb (VStr (_content_id v ch.(ch_id))) x) cands))
    (remaining st).
Proof.
  revert st. induction cands as [|v r IH]; intros st; cbn [scan_candidates existsb].
  - symmetry. apply filter_all. reflexivity.
  - set (p := fun x => negb (py_eqb (VStr (_content_id v ch.(ch_id))) x)).
    set (q := fun x => negb (existsb (fun v0 => py_eqb (VStr (_content_id v0 ch.(ch_id))) x) r)).
    rewrite (filter_ext (fun x => negb (py_eqb (VStr (_content_id v ch.(ch_id))) x ||
                                          existsb (fun v0 => py_eqb (VStr (_content_id v0 ch.(ch_id))) x) r))
               (fun x => p x && q x)) by (intros x; unfold p, q; apply negb_orb).
    apply loop_step.
    destruct (existsb (py_eqb (VStr (_content_id v ch.(ch_id)))) (remaining st)) eqn:E.
    + unfold remaining_empty. cbn [remaining].
      destruct (filter p (remaining st)) as [|y ys] eqn:F; [left; split; reflexivity|].
      right. rewrite IH. cbn [remaining]. rewrite <- F. reflexivity.
    + right. rewrite IH. f_equal. symmetry. apply filter_all.
      intros x Hx. unfold p. destruct (py_eqb (VStr (_content_id v ch.(ch_id))) x) eqn:G;
        [|reflexivity].
      exfalso. assert (existsb (py_eqb (VStr (_content_id v ch.(ch_id)))) (remaining st) = true)
        by (apply existsb_exists; eauto). congruence.
Qed.

Lemma scan_chunks_remaining (f : FileMeta) (cands : list string) (chs : list Chunk)
  (st : scan_state) :
  remaining (scan_chunks f cands chs st) =
  filter (fun x => negb (existsb (fun ch => chunk_matches cands ch x) chs)) (remaining st).
Proof.
  revert st. induction chs as [|ch r IH]; intros st; cbn [scan_chunks existsb].
  - symmetry. apply filter_all. reflexivity.
  - set (p := fun x => negb (chunk_matches cands ch x)).
    set (q := fun x => negb (existsb (fun ch0 => chunk_matches cands ch0 x) r)).
    rewrite (filter_ext (fun x => negb (chunk_matches cands ch x ||
                                          existsb (fun ch0 => chunk_matches cands ch0 x) r))
               (fun x => p x && q x)) by (intros x; unfold p, q; apply negb_orb).
    apply loop_step.
    destruct (String.eqb ch.(ch_id) "") eqn:E.
    + right. rewrite IH. f_equal. symmetry. apply filter_all.
      intros x _. unfold p, chunk_matches. rewrite E. reflexivity.
    + assert (Hc : remaining (scan_candidates f ch cands st) = filter p (remaining st)).
      { rewrite scan_candidates_remaining. apply filter_ext. intros x.
        unfold p, chunk_matches. rewrite E. reflexivity. }
      unfold remaining_empty. rewrite Hc.
      destruct (filter p (remaining st)) as [|y ys] eqn:F;
        [left; split; [reflexivity | cbn [fst]; exact Hc]|].
      right. rewrite IH, Hc. reflexivity.
Qed.

Lemma scan_files_remaining (svc : SearchService) (files : list FileMeta)
  (st : scan_state) (trace : list event) :
  remaining (fst (scan_files svc files st trace)) =
  filter (fun x => negb (matched svc files x)) (remaining st).
Proof.
  revert st trace. induction files as [|f r IH]; intros st trace; cbn [scan_files].
  - symmetry. apply filter_all. reflexivity.
  - set (p := fun x => negb (file_matches svc f x)).
    set (q := fun x => negb (matched svc r x)).
    unfold matched. cbn [existsb].
    rewrite (filter_ext (fun x => negb (file_matches svc f x ||
                                          existsb (fun f0 => file_matches svc f0 x) r))
               (fun x => p x && q x)) by (intros x; unfold p, q; apply negb_orb).
    apply loop_step.
    destruct (String.eqb f.(f_id) "" || String.eqb f.(f_checksum) "") eqn:E.
    + right. rewrite IH. f_equal. symmetry. apply filter_all.
      intros x _. unfold p, file_matches.
      apply orb_true_iff in E as [E|E]; rewrite E; [reflexivity|].
      rewrite andb_false_r. reflexivity.
    + apply orb_false_iff in E as [E1 E2].
      assert (Hc : remaining (scan_chunks f (_doc_id_variants f.(f_id))
                     (get_document_chunks svc f.(f_checksum)) st) = filter p (remaining st)).
      { rewrite scan_chunks_remaining. apply filter_ext. intros x.
        unfold p, file_matches. rewrite E1, E2. reflexivity. }
      unfold remaining_empty. rewrite Hc.
      destruct (filter p (remaining st)) as [|y ys] eqn:F;
        [left; split; [reflexivity | cbn [fst]; exact Hc]|].
      right. rewrite IH, Hc. reflexivity.
Qed.

(** ** C6: document-id variants *)

Lemma str_in_In (x : string) (l : list string) : str_in x l = true -> In x l.
Proof.
  unfold str_in. intros H. apply existsb_exists in H as (y & Hy & E).
  apply String.eqb_eq in E. subst. exact Hy.
Qed.

Lemma In_str_in (x : string) (l : list string) : In x l -> str_in x l = true.
Proof.
  intros H. unfold str_in. apply existsb_exists. exists x. split; [exact H | apply String.eqb_refl].
Qed.

(** The last step of [_doc_id_variants] only ever appends. *)
Lemma entity_step_incl (c : bool) (e x : string) (v2 : list string) :
  In x v2 -> In x (if c then if negb (str_in e v2) then (v2 ++ [e])%list else v2 else v2).
Proof.
  intros H. destruct c; [destruct (negb (str_in e v2))|]; auto using in_or_app.
Qed.

Lemma entity_step_mem (e : string) (v2 : list string) :
  In e (if negb (str_in e v2) then (v2 ++ [e])%list else v2).
Proof.
  destruct (str_in e v2) eqn:E; simpl.
  - apply str_in_In. exact E.
  - apply in_or_app. right. left. reflexivity.
Qed.

Lemma slength_app (s t : string) :
  String.length (s ++ t) = (String.length s + String.length t)%nat.
Proof. induction s as [|a r IH]; simpl; [reflexivity|]. rewrite IH. reflexivity. Qed.

Lemma split_once_entity_tail (u : string) :
  count_char "'" u = O ->
  split_once "')" (u ++ "') entity_type='FILE'") = Some (u, " entity_type='FILE'").
Proof.
  induction u as [|c r IH]; intros H; [reflexivity|].
  change (count_char "'" (String c r)) with
    ((if Ascii.eqb "'" c then 1 else 0) + count_char "'" r)%nat in H.
  destruct (Ascii.eqb_spec "'" c) as [_|Hc]; [lia|]. simpl in H.
  cbn [append]. unfold split_once; fold split_once. cbn [String.prefix].
  destruct (ascii_dec "'" c) as [E|_]; [contradiction|].
  rewrite (IH H). reflexivity.
Qed.

Lemma split_once_entity (u : string) :
  split_once "UUID('" (entity_of u) = Some ("id=", (u ++ "') entity_type='FILE'")%string).
Proof. destruct u; reflexivity. Qed.

(** A bare UUID is tried as itself and in its entity-descriptor form. *)
Lemma bare_uuid_variants (u : string) :
  String.length u = 36%nat -> count_char "-" u = 4%nat ->
  In u (_doc_id_variants u) /\ In (entity_of u) (_doc_id_variants u).
Proof.
  intros Hl Hc. unfold _doc_id_variants.
  assert (Hne : String.eqb u "" = false) by (destruct u; [discriminate | reflexivity]).
  rewrite Hne, Hl, Hc. cbn [Nat.eqb andb].
  match goal with |- context [if negb (str_in ?e ?v2) then _ else _] =>
    assert (Hu : In u v2) end.
  { destruct (split_once "UUID('" u) as [[? after]|]; [|left; reflexivity].
    match goal with |- In u (if ?c then _ else _) => destruct c end;
      [apply in_or_app; left|]; left; reflexivity. }
  split.
  - destruct (negb _); auto using in_or_app.
  - apply entity_step_mem.
Qed.

(** An entity descriptor is tried as itself and as the UUID it wraps. *)
Lemma entity_variants (u : string) :
  u <> ""%string -> count_char "'" u = O ->
  In u (_doc_id_variants (entity_of u)) /\ In (entity_of u) (_doc_id_variants (entity_of u)).
Proof.
  intros Hu Hq. unfold _doc_id_variants.
  rewrite split_once_entity, (split_once_entity_tail u Hq).
  assert (He : String.eqb (entity_of u) "" = false) by reflexivity.
  assert (Hd : String.eqb u (entity_of u) = false).
  { apply String.eqb_neq. intros E. apply (f_equal String.length) in E.
    unfold entity_of in E. rewrite !slength_app in E. simpl in E. lia. }
  assert (Hx : String.eqb u "" = false) by (apply String.eqb_neq; exact Hu).
  rewrite He, Hx.
  replace (str_in u [entity_of u]) with false
    by (unfold str_in; cbn [existsb]; rewrite Hd; reflexivity).
  cbn [negb andb orb].
  split; apply entity_step_incl; simpl; auto.
Qed.

(** The variants actually reach the scan: a content id computed under any
    variant of a usable document, for any usable chunk of it, leaves
    [remaining]. *)
Lemma variant_resolves (svc : SearchService) (files : list FileMeta) (f : FileMeta)
  (ch : Chunk) (v : string) (ids : list val) (trace : list event) :
  In f files -> f.(f_id) <> ""%string -> f.(f_checksum) <> ""%string ->
  In ch (svc.(get_document_chunks) f.(f_checksum)) -> ch.(ch_id) <> ""%string ->
  In v (_doc_id_variants f.(f_id)) ->
  matched svc files (VStr (_content_id v ch.(ch_id))) = true.
Proof.
  intros Hf Hi Hc Hch Hid Hv. apply existsb_exists. exists f. split; [exact Hf|].
  unfold file_matches. apply String.eqb_neq in Hi, Hc. rewrite Hi, Hc. simpl.
  apply existsb_exists. exists ch. split; [exact Hch|].
  unfold chunk_matches. apply String.eqb_neq in Hid. rewrite Hid. simpl.
  apply existsb_exists. exists v. split; [exact Hv|]. simpl. apply String.eqb_refl.
Qed.

(** C6: a bare-UUID document id (36 characters, 4 hyphens) is also tried
    in its entity-descriptor encoding, an entity descriptor containing
    [UUID('] is also tried as the UUID it wraps (in general: the non-empty
    text between [UUID('] and the next [')]), and a content id derived under
    any tried encoding, for a chunk of that document, is resolved by the
    scan: it is no longer in [remaining] when the scan ends. *)
Theorem doc_id_variant_matching :
  (forall u, String.length u = 36%nat -> count_char "-" u = 4%nat ->
     In u (_doc_id_variants u) /\ In (entity_of u) (_doc_id_variants u)) /\
  (forall u, u <> ""%string -> count_char "'" u = O ->
     In u (_doc_id_variants (entity_of u)) /\
     In (entity_of u) (_doc_id_variants (entity_of u))) /\
  (forall raw pre after,
     split_once "UUID('" raw = Some (pre, after) ->
     let extracted := match split_once "')" after with Some (b, _) => b | None => after end in
     extracted <> ""%string -> In extracted (_doc_id_variants raw)) /\
  (forall svc files f ch v ids trace,
     In f files -> f.(f_id) <> ""%string -> f.(f_checksum) <> ""%string ->
     In ch (svc.(get_document_chunks) f.(f_checksum)) -> ch.(ch_id) <> ""%string ->
     In v (_doc_id_variants f.(f_id)) ->
     ~ In (VStr (_content_id v ch.(ch_id)))
         (remaining (fst (scan_files svc files (mkScan ids []) trace)))).
Proof.
  split; [exact bare_uuid_variants|].
  split; [exact entity_variants|].
  split.
  - intros raw pre after Hs extracted Hx. unfold _doc_id_variants. rewrite Hs.
    fold extracted. apply entity_step_incl.
    apply String.eqb_neq in Hx. rewrite Hx. cbn [negb andb].
    destruct (str_in extracted _) eqn:E; simpl.
    + apply str_in_In. exact E.
    + apply in_or_app. right. left. reflexivity.
  - intros svc files f ch v ids trace Hf Hi Hc Hch Hid Hv Hin.
    rewrite scan_files_remaining in Hin. apply filter_In in Hin as [_ Hn].
    rewrite (variant_resolves svc files f ch v ids trace Hf Hi Hc Hch Hid Hv) in Hn.
    discriminate.
Qed.

(** ** Write-back and the unresolved-id report *)

Lemma dget_dset_same (d : list (string * val)) (k : string) (v : val) :
  dget (dset d k v) k = Some v.
Proof.
  induction d as [|[k' v'] r IH]; simpl; [rewrite String.eqb_refl; reflexivity|].
  destruct (String.eqb_spec k' k) as [->|Hne]; simpl.
  - rewrite String.eqb_refl. reflexivity.
  - apply String.eqb_neq in Hne. rewrite Hne. exact IH.
Qed.

Lemma dget_dset_other (d : list (string * val)) (k k' : string) (v : val) :
  k <> k' -> dget (dset d k v) k' = dget d k'.
Proof.
  intros Hk. induction d as [|[k0 v0] r IH]; simpl.
  - apply String.eqb_neq in Hk. rewrite Hk. reflexivity.
  - destruct (String.eqb_spec k0 k) as [->|_]; simpl.
    + apply String.eqb_neq in Hk. rewrite Hk. reflexivity.
    + rewrite IH. reflexivity.
Qed.

Lemma mapR_In_ok {A B} (f : A -> result B) (l : list A) (l' : list B) (x : A) :
  mapR f l = Ok l' -> In x l -> exists y, In y l' /\ f x = Ok y.
Proof.
  revert l'. induction l as [|a r IH]; intros l' H Hx; [destruct Hx|]. simpl in H.
  destruct (f a) as [y|] eqn:Ea; [|discriminate]. simpl in H.
  destruct (mapR f r) as [ys|] eqn:Er; [|discriminate]. injection H as <-.
  destruct Hx as [<-|Hx].
  - exists y. split; [left; reflexivity | exact Ea].
  - destruct (IH ys eq_refl Hx) as (z & Hz & Ez). exists z. split; [right; exact Hz | exact Ez].
Qed.

Lemma mapR_snd {A B C} (f : A -> result (B * C)) (g : A -> C) (l : list A) ps :
  (forall x y, f x = Ok y -> snd y = g x) -> mapR f l = Ok ps -> map snd ps = map g l.
Proof.
  intros Hf. revert ps. induction l as [|a r IH]; intros ps H; simpl in H.
  - injection H as <-. reflexivity.
  - destruct (f a) as [y|] eqn:Ea; [|discriminate]. simpl in H.
    destruct (mapR f r) as [ys|] eqn:Er; [|discriminate]. injection H as <-.
    simpl. rewrite (Hf a y Ea), (IH ys eq_refl). reflexivity.
Qed.

Lemma build_annotations_ok m ids ac :
  _build_annotations_for m ids = Ok ac -> snd ac = ids /\ length (fst ac) = length ids.
Proof.
  unfold _build_annotations_for. intros H.
  destruct (mapR _ ids) as [pairs|] eqn:Ep; [|discriminate]. simpl in H. injection H as <-.
  assert (Hs : map snd pairs = map (fun x => x) ids).
  { refine (mapR_snd _ (fun x => x) ids pairs _ Ep). intros x y Hxy.
    destruct (negb (hashable x)); [discriminate|].
    destruct (lookup_cid m x) as [[[ch fu] fnm]|]; [|discriminate].
    injection Hxy as <-. reflexivity. }
  rewrite map_id in Hs. simpl. split; [exact Hs|].
  rewrite length_map, <- Hs, length_map. reflexivity.
Qed.

(** A record after write-back: [citation_annotation_ids] is exactly [ids],
    with one annotation per id. *)
Definition record_enriched (y : val) (ids : list val) : Prop :=
  exists d, y = VDict d /\ dget d "citation_annotation_ids" = Some (VList ids) /\
  exists anns, dget d "annotations" = Some (VList anns) /\ length anns = length ids.

Lemma enrich_record_ok m x y ids :
  jcids_of x = Ok ids -> enrich_record m x = Ok y -> record_enriched y ids.
Proof.
  intros Hj H. unfold enrich_record in H. rewrite Hj in H. simpl in H.
  destruct (_build_annotations_for m ids) as [ac|] eqn:Eb; [|discriminate]. simpl in H.
  destruct (build_annotations_ok m ids ac Eb) as [Hs Hl].
  destruct x as [| | | | |d]; try discriminate. injection H as <-.
  eexists; split; [reflexivity|]. split.
  - rewrite dget_dset_same, Hs. reflexivity.
  - exists (fst ac). split; [|exact Hl].
    rewrite dget_dset_other by discriminate. apply dget_dset_same.
Qed.

Lemma py_list_or_list (l : list val) : py_list (py_or (VList l) (VList [])) = Ok l.
Proof. destruct l; reflexivity. Qed.

Lemma write_back_final m fo fo' fr ids :
  write_back m fo = Ok fo' -> dget fo "final_result" = Some fr -> jcids_of fr = Ok ids ->
  exists y, dget fo' "final_result" = Some y /\ record_enriched y ids.
Proof.
  intros H Hf Hj. unfold write_back, dmem, get_or in H. rewrite Hf in H. simpl in H.
  destruct (enrich_record m fr) as [y|] eqn:Er; [|discriminate]. simpl in H.
  exists y. split; [|exact (enrich_record_ok m fr y ids Hj Er)].
  assert (Hy : dget (dset fo "final_result" y) "final_result" = Some y) by apply dget_dset_same.
  destruct (dget (dset fo "final_result" y) "answers") as [av|] eqn:Ea;
    [|injection H as <-; exact Hy].
  destruct (py_list (py_or av (VList []))) as [items|]; [|discriminate]. simpl in H.
  destruct (mapR (enrich_record m) items) as [items'|]; [|discriminate]. simpl in H.
  destruct av; injection H as <-; try exact Hy.
  rewrite dget_dset_other by discriminate. exact Hy.
Qed.

Lemma write_back_answers m fo fo' l x ids :
  write_back m fo = Ok fo' -> dget fo "final_result" = None ->
  dget fo "answers" = Some (VList l) -> In x l -> jcids_of x = Ok ids ->
  exists l' y, dget fo' "answers" = Some (VList l') /\ In y l' /\ record_enriched y ids.
Proof.
  intros H Hf Ha Hx Hj. unfold write_back, dmem, get_or in H. rewrite Hf in H. simpl in H.
  rewrite Ha, py_list_or_list in H. simpl in H.
  destruct (mapR (enrich_record m) l) as [items'|] eqn:Em; [|discriminate].
  injection H as <-.
  destruct (mapR_In_ok _ _ _ x Em Hx) as (y & Hy & Ey).
  exists items', y. split; [apply dget_dset_same|]. split; [exact Hy|].
  exact (enrich_record_ok m x y ids Hj Ey).
Qed.

Lemma insert_str_length (x : string) (l : list string) :
  length (insert_str x l) = S (length l).
Proof.
  induction l as [|y r IH]; simpl; [reflexivity|].
  destruct (String.leb x y); simpl; [reflexivity|]. rewrite IH. reflexivity.
Qed.

Lemma sort_str_length (l : list string) : length (sort_str l) = length l.
Proof. induction l as [|x r IH]; simpl; [reflexivity|]. rewrite insert_str_length, IH. reflexivity. Qed.

Lemma all_strs_length (l : list val) ss : all_strs l = Some ss -> length ss = length l.
Proof.
  revert ss. induction l as [|v r IH]; intros ss H; simpl in H.
  - injection H as <-. reflexivity.
  - destruct v; try discriminate. destruct (all_strs r) as [t|] eqn:E; [|discriminate].
    injection H as <-. simpl. rewrite (IH t eq_refl). reflexivity.
Qed.

Lemma py_sorted_strs (l : list val) ss :
  all_strs l = Some ss -> py_sorted l = Ok (map VStr (sort_str ss)).
Proof.
  intros H. unfold py_sorted. destruct l as [|v [|w r]].
  - simpl in H. injection H as <-. reflexivity.
  - simpl in H. destruct v; try discriminate. injection H as <-. reflexivity.
  - rewrite H. reflexivity.
Qed.

Lemma py_sorted_nonempty (l r : list val) : l <> [] -> py_sorted l = Ok r -> r <> [].
Proof.
  intros Hl H. unfold py_sorted in H. destruct l as [|v [|w t]]; [congruence| |].
  - injection H as <-. discriminate.
  - destruct (all_strs (v :: w :: t)) as [ss|] eqn:E.
    + injection H as <-. intros Hn. apply (f_equal (@length val)) in Hn.
      rewrite length_map, sort_str_length, (all_strs_length _ _ E) in Hn. discriminate.
    + destruct (forallb _ _); [|discriminate].
      set (k := fun v : val => match num_of v with Some z => z | None => 0%Z end).
      assert (Hr : r = sort_by k (v :: w :: t)) by (injection H as <-; reflexivity).
      rewrite Hr. intros Hn.
      pose proof (Permutation_length (sort_by_perm k (v :: w :: t))) as Hp.
      rewrite Hn in Hp. discriminate.
Qed.

Lemma concat_In_nonempty {A} (per : list (list A)) (ids : list A) :
  In ids per -> ids <> [] -> concat per <> [].
Proof.
  intros Hi Hn Hc. destruct ids as [|a r]; [congruence|].
  assert (In a (concat per)) by (apply in_concat; exists (a :: r); split; [exact Hi | left; reflexivity]).
  rewrite Hc in H. destruct H.
Qed.

(** The content ids no supplied document resolves, under any encoding. *)
Definition unresolved (svc : SearchService) (files : list FileMeta) (u : list val)
  : list val :=
  filter (fun x => negb (matched svc files x)) u.

Lemma enrich_ok_cases svc fo files fo' :
  fst (_enrich_with_annotations svc fo files) = Ok fo' ->
  (collect_content_ids fo = Ok [] /\ fo' = fo) \/ (exists m, write_back m fo = Ok fo').
Proof.
  unfold _enrich_with_annotations. intros H.
  destruct (collect_content_ids fo) as [[|i is]|e]; [| |discriminate].
  - left. split; [reflexivity|]. injection H as <-. reflexivity.
  - right. destruct (dedup [] (i :: is)) as [u|e]; [|discriminate].
    destruct (scan_files _ _ _ _) as [st tr]. cbn [fst] in H.
    destruct (py_sorted (remaining st)) as [[|a b]|e]; try discriminate.
    exists (chunk_by_content_id st). exact H.
Qed.

(** C3, what the code does: the referenced ids are those of [final_result] when
    that key is present, else those of the [answers] elements. If, after
    the scan, any of the distinct referenced ids is resolved by no chunk of
    any supplied document under any document-id encoding, enrichment
    raises; for string ids the error is the [RuntimeError] naming the number
    of unresolved ids, the number of distinct ids and the first 10
    unresolved ids in sorted order. When enrichment succeeds, every record
    it read that claims citations carries [citation_annotation_ids] equal
    to its [justifying_contents_ids], with one annotation per id. *)
Theorem enrich_fail_closed (svc : SearchService) (flow_outputs : list (string * val))
  (source_files : list FileMeta) :
  (forall ids u,
     collect_content_ids flow_outputs = Ok ids -> ids <> [] -> dedup [] ids = Ok u ->
     unresolved svc source_files u <> [] ->
     (exists e, fst (_enrich_with_annotations svc flow_outputs source_files) = Err e) /\
     (forall ss, all_strs (unresolved svc source_files u) = Some ss ->
        fst (_enrich_with_annotations svc flow_outputs source_files) =
          Err (RuntimeError (MUnresolved (length (unresolved svc source_files u)) (length u)
                               (firstn 10 (map VStr (sort_str ss))))))) /\
  (forall fo', fst (_enrich_with_annotations svc flow_outputs source_files) = Ok fo' ->
     (forall fr ids, dget flow_outputs "final_result" = Some fr -> jcids_of fr = Ok ids ->
        ids <> [] ->
        exists y, dget fo' "final_result" = Some y /\ record_enriched y ids) /\
     (forall l x ids, dget flow_outputs "final_result" = None ->
        dget flow_outputs "answers" = Some (VList l) -> In x l -> jcids_of x = Ok ids ->
        ids <> [] ->
        exists l' y, dget fo' "answers" = Some (VList l') /\ In y l' /\ record_enriched y ids)).
Proof.
  split.
  - intros ids u Hc Hn Hd Hu.
    unfold _enrich_with_annotations. rewrite Hc.
    destruct ids as [|i is]; [congruence|]. rewrite Hd.
    pose proof (scan_files_remaining svc source_files (mkScan u [])
                  (EvSearchClient :: (if svc.(session_open) then [] else [EvStart]))) as Hr.
    destruct (scan_files _ _ _ _) as [st tr] eqn:Es. cbn [fst remaining] in Hr |- *.
    fold (unresolved svc source_files u) in Hr. rewrite Hr.
    split.
    + destruct (py_sorted (unresolved svc source_files u)) as [r|e] eqn:Ep.
      * pose proof (py_sorted_nonempty _ _ Hu Ep) as Hr'.
        destruct r; [congruence|]. eexists; reflexivity.
      * eexists; reflexivity.
    + intros ss Hs. rewrite (py_sorted_strs _ _ Hs).
      pose proof (all_strs_length _ _ Hs) as Hl.
      destruct (map VStr (sort_str ss)) as [|a b] eqn:Em.
      * exfalso. apply (f_equal (@length val)) in Em.
        rewrite length_map, sort_str_length, Hl in Em.
        destruct (unresolved svc source_files u); [congruence | discriminate].
      * rewrite <- Em, length_map, sort_str_length, Hl. reflexivity.
  - intros fo' H. split.
    + intros fr ids Hf Hj Hn.
      destruct (enrich_ok_cases _ _ _ _ H) as [[Hc _] | [m Hw]].
      * exfalso. unfold collect_content_ids, dmem, get_or in Hc.
        rewrite Hf, Hj in Hc. injection Hc as ->. congruence.
      * exact (write_back_final m flow_outputs fo' fr ids Hw Hf Hj).
    + intros l x ids Hf Ha Hx Hj Hn.
      destruct (enrich_ok_cases _ _ _ _ H) as [[Hc _] | [m Hw]].
      * exfalso. unfold collect_content_ids, dmem, get_or in Hc.
        rewrite Hf, Ha in Hc. simpl in Hc. rewrite py_list_or_list in Hc. simpl in Hc.
        destruct (mapR jcids_of l) as [per|] eqn:Em; [|discriminate].
        simpl in Hc. injection Hc as Hc.
        destruct (mapR_In_ok _ _ _ x Em Hx) as (y & Hy & Ey).
        rewrite Hj in Ey. injection Ey as <-.
        exact (concat_In_nonempty per ids Hy Hn Hc).
      * exact (write_back_answers m flow_outputs fo' l x ids Hw Hf Ha Hx Hj).
Qed.

Definition c3_unresolved_outputs : list (string * val) :=
  [("final_result", VDict [("answer", VStr "A"); ("answer_explanation", VStr "E");
                           ("justifying_contents_ids", VList [VStr "x"; VStr "x"])])].

Lemma enrich_fail_closed_witness :
  fst (_enrich_with_annotations demo_service c3_unresolved_outputs [mkFile "d1" "c1" "doc"]) =
  Err (RuntimeError (MUnresolved 1 1 [VStr "x"])).
Proof.
  destruct (enrich_fail_closed demo_service c3_unresolved_outputs [mkFile "d1" "c1" "doc"])
    as [Ha _].
  destruct (Ha [VStr "x"; VStr "x"] [VStr "x"]) as [_ Hs].
  - reflexivity.
  - discriminate.
  - reflexivity.
  - vm_compute. discriminate.
  - rewrite (Hs ["x"]); [reflexivity|]. vm_compute. reflexivity.
Defined.

(** A mixed output: [final_result] cites nothing while an [answers]
    element cites ["x"], which no supplied document provides. *)
Definition c3_mixed_outputs : list (string * val) :=
  [("final_result", VDict [("answer", VStr "A"); ("justifying_contents_ids", VList [])]);
   ("answers", VList [VDict [("id", VStr "q1"); ("answer", VStr "B");
                             ("justifying_contents_ids", VList [VStr "x"])]])].

(** C3 as stated fails: the unresolvable citation of the [answers] element
    is passed through without error and without citation ids, since the
    [answers] list is not read when [final_result] is present. *)
Lemma enrich_fail_closed_counterexample :
  _enrich_with_annotations demo_service c3_mixed_outputs [] = (Ok c3_mixed_outputs, []) /\
  jcids_of (VDict [("id", VStr "q1"); ("answer", VStr "B");
                   ("justifying_contents_ids", VList [VStr "x"])]) = Ok [VStr "x"] /\
  dget [("id", VStr "q1"); ("answer", VStr "B");
        ("justifying_contents_ids", VList [VStr "x"])] "citation_annotation_ids" = None.
Proof. split; [|split]; reflexivity. Qed.

Definition c6_uuid : string := "df8b0c1e-2f3a-4b5c-8d6e-7f8091a2b3c4".

Lemma doc_id_variant_matching_witness :
  In c6_uuid (_doc_id_variants c6_uuid) /\
  In (entity_of c6_uuid) (_doc_id_variants c6_uuid) /\
  In c6_uuid (_doc_id_variants (entity_of c6_uuid)) /\
  ~ In (VStr (_content_id (entity_of c6_uuid) "ch1"))
      (remaining (fst (scan_files demo_service [mkFile c6_uuid "c1" "doc"]
                         (mkScan [VStr (_content_id (entity_of c6_uuid) "ch1")] []) []))).
Proof.
  destruct doc_id_variant_matching as (H1 & H2 & _ & H4).
  destruct (H1 c6_uuid) as [Ha Hb]; [reflexivity | reflexivity|].
  split; [exact Ha|]. split; [exact Hb|]. split.
  - apply H2; [discriminate | reflexivity].
  - apply (H4 demo_service [mkFile c6_uuid "c1" "doc"] (mkFile c6_uuid "c1" "doc")
             (mkChunk "ch1" "first" []) (entity_of c6_uuid)).
    + left. reflexivity.
    + discriminate.
    + discriminate.
    + left. reflexivity.
    + discriminate.
    + exact Hb.
Defined.

(** * Further properties of the code *)

(** ** Python equality on hashable values *)

Lemma py_eqb_sym (a b : val) : py_eqb a b = py_eqb b a.
Proof.
  destruct a, b; simpl; try reflexivity; try apply String.eqb_sym; apply Z.eqb_sym.
Qed.

Lemma py_eqb_trans (a b c : val) :
  py_eqb a b = true -> py_eqb b c = true -> py_eqb a c = true.
Proof.
  destruct a, b, c; simpl; intros H1 H2; try discriminate; try reflexivity;
    repeat match goal with
           | H : String.eqb _ _ = true |- _ => apply String.eqb_eq in H
           | H : Z.eqb _ _ = true |- _ => apply Z.eqb_eq in H
           end; subst;
    first [apply String.eqb_refl | apply Z.eqb_eq; congruence].
Qed.

Lemma py_eqb_refl (a : val) : hashable a = true -> py_eqb a a = true.
Proof.
  destruct a; simpl; intros H; try discriminate; try reflexivity;
    first [apply String.eqb_refl | apply Z.eqb_refl].
Qed.

Lemma py_eqb_VStr (s : string) (x : val) : py_eqb (VStr s) x = true -> x = VStr s.
Proof.
  destruct x; simpl; intros H; try discriminate. apply String.eqb_eq in H. subst. reflexivity.
Qed.

(** ** [_doc_id_variants]: shape of the candidate list *)

Lemma append_if_nodup (c : bool) (e : string) (v : list string) :
  (c = true -> ~ In e v) -> NoDup v -> NoDup (if c then (v ++ [e])%list else v).
Proof.
  intros Hc Hv. destruct c; [|exact Hv].
  apply (Permutation_NoDup (Permutation_cons_append v e)).
  constructor; [apply Hc; reflexivity | exact Hv].
Qed.

Lemma append_if_forall (P : string -> Prop) (c : bool) (e : string) (v : list string) :
  (c = true -> P e) -> Forall P v -> Forall P (if c then (v ++ [e])%list else v).
Proof.
  intros Hc Hv. destruct c; [|exact Hv]. apply Forall_app. split; [exact Hv|].
  constructor; [apply Hc; reflexivity | constructor].
Qed.

Lemma append_if_hd (c : bool) (e x : string) (v : list string) :
  hd_error v = Some x -> hd_error (if c then (v ++ [e])%list else v) = Some x.
Proof. intros H. destruct c; [destruct v; [discriminate | exact H] | exact H]. Qed.

Lemma str_in_false (x : string) (l : list string) : str_in x l = false -> ~ In x l.
Proof. intros H Hin. rewrite (In_str_in x l Hin) in H. discriminate. Qed.

Lemma entity_of_nonempty (u : string) : entity_of u <> ""%string.
Proof. discriminate. Qed.

(** [_doc_id_variants] lists distinct, non-empty document ids, starting
    with the raw id itself when it is non-empty; an empty raw id gives no
    candidate at all (such a file is skipped by the scan anyway). *)
Theorem doc_id_variants_shape (raw_id : string) :
  NoDup (_doc_id_variants raw_id) /\
  Forall (fun v => v <> ""%string) (_doc_id_variants raw_id) /\
  (raw_id <> ""%string -> hd_error (_doc_id_variants raw_id) = Some raw_id) /\
  (raw_id = ""%string -> _doc_id_variants raw_id = []).
Proof.
  unfold _doc_id_variants. cbv zeta.
  set (v1 := if String.eqb raw_id "" then [] else [raw_id]).
  match goal with
  | |- context [?t] =>
      match t with
      | match split_once "UUID('" raw_id with Some _ => _ | None => _ end => set (v2 := t)
      end
  end.
  assert (Hv1 : NoDup v1 /\ Forall (fun v => v <> ""%string) v1).
  { unfold v1. destruct (String.eqb_spec raw_id "").
    - split; constructor.
    - split; repeat constructor; [intros []| exact n]. }
  assert (Hv2 : NoDup v2 /\ Forall (fun v => v <> ""%string) v2).
  { unfold v2. destruct (split_once "UUID('" raw_id) as [[? after]|]; [|exact Hv1].
    set (ex := match split_once "')" after with Some (b, _) => b | None => after end).
    destruct Hv1 as [N F]. split.
    - apply append_if_nodup; [|exact N]. intros H. apply andb_prop in H as [_ H].
      apply negb_true_iff in H. exact (str_in_false _ _ H).
    - apply append_if_forall; [|exact F]. intros H. apply andb_prop in H as [H _].
      apply negb_true_iff, String.eqb_neq in H. exact H. }
  destruct Hv2 as [N2 F2].
  assert (Hfin : forall (c : bool), NoDup (if c then
                    if negb (str_in (entity_of raw_id) v2) then (v2 ++ [entity_of raw_id])%list
                    else v2 else v2) /\
                   Forall (fun v => v <> ""%string) (if c then
                    if negb (str_in (entity_of raw_id) v2) then (v2 ++ [entity_of raw_id])%list
                    else v2 else v2)).
  { intros [|]; [|split; assumption]. split.
    - apply append_if_nodup; [|exact N2]. intros H. apply negb_true_iff in H.
      exact (str_in_false _ _ H).
    - apply append_if_forall; [|exact F2]. intros _. apply entity_of_nonempty. }
  destruct (Hfin (Nat.eqb (String.length raw_id) 36 && Nat.eqb (count_char "-" raw_id) 4))
    as [Nf Ff].
  split; [exact Nf|]. split; [exact Ff|]. split.
  - intros Hne. assert (H1 : hd_error v1 = Some raw_id)
      by (unfold v1; apply String.eqb_neq in Hne; rewrite Hne; reflexivity).
    assert (H2 : hd_error v2 = Some raw_id).
    { unfold v2. destruct (split_once "UUID('" raw_id) as [[? after]|]; [|exact H1].
      apply append_if_hd. exact H1. }
    destruct (_ && _); [apply append_if_hd|]; exact H2.
  - intros ->. reflexivity.
Qed.

Lemma doc_id_variants_shape_witness :
  hd_error (_doc_id_variants "df8b0c1e-2f3a-4b5c-8d6e-7f8091a2b3c4") =
    Some "df8b0c1e-2f3a-4b5c-8d6e-7f8091a2b3c4" /\ _doc_id_variants "" = [].
Proof.
  destruct (doc_id_variants_shape "df8b0c1e-2f3a-4b5c-8d6e-7f8091a2b3c4") as (_ & _ & H & _).
  destruct (doc_id_variants_shape "") as (_ & _ & _ & H').
  split; [apply H; discriminate | apply H'; reflexivity].
Defined.

(** ** [unique_content_ids]: order-preserving deduplication *)

(** [subseq u l]: [u] is [l] with some elements left out, in order. *)
Inductive subseq {A : Type} : list A -> list A -> Prop :=
| subseq_nil : subseq [] []
| subseq_skip x u l : subseq u l -> subseq u (x :: l)
| subseq_keep x u l : subseq u l -> subseq (x :: u) (x :: l).

Lemma dedup_ok_gen (seen l u : list val) :
  dedup seen l = Ok u ->
  subseq u l /\
  ForallOrdPairs (fun a b => py_eqb a b = false) u /\
  (forall y, In y u -> existsb (py_eqb y) seen = false) /\
  (forall x, In x l -> existsb (py_eqb x) seen = true \/ exists y, In y u /\ py_eqb x y = true).
Proof.
  revert seen u. induction l as [|x r IH]; intros seen u H; simpl in H.
  - injection H as <-. split; [constructor|]. split; [constructor|]. split; intros ? [].
  - destruct (hashable x) eqn:Hh; [|discriminate]. simpl in H.
    destruct (existsb (py_eqb x) seen) eqn:Ex.
    + destruct (IH seen u H) as (S & O & N & C). split; [constructor; exact S|].
      split; [exact O|]. split; [exact N|].
      intros x' [<-|Hx']; [left; exact Ex | exact (C x' Hx')].
    + destruct (dedup (x :: seen) r) as [t|] eqn:Et; [|discriminate].
      simpl in H. injection H as <-.
      destruct (IH (x :: seen) t Et) as (S & O & N & C).
      split; [constructor; exact S|]. split.
      { constructor; [|exact O]. apply Forall_forall. intros y Hy.
        specialize (N y Hy). simpl in N. apply orb_false_iff in N as [N _].
        rewrite py_eqb_sym. exact N. }
      split.
      { intros y [<-|Hy]; [exact Ex|]. specialize (N y Hy). simpl in N.
        apply orb_false_iff in N as [_ N]. exact N. }
      intros x' [<-|Hx'].
      * right. exists x. split; [left; reflexivity | apply py_eqb_refl; exact Hh].
      * destruct (C x' Hx') as [Hs|(y & Hy & Ey)].
        -- simpl in Hs. apply orb_true_iff in Hs as [Hs|Hs]; [|left; exact Hs].
           right. exists x. split; [left; reflexivity | exact Hs].
        -- right. exists y. split; [right; exact Hy | exact Ey].
Qed.

Lemma dedup_err_gen (seen l : list val) (e : py_error) :
  dedup seen l = Err e <-> e = unhashable_err /\ exists x, In x l /\ hashable x = false.
Proof.
  revert seen. induction l as [|x r IH]; intros seen; simpl.
  - split; [discriminate | intros (_ & ? & [] & _)].
  - destruct (hashable x) eqn:Hh; simpl.
    + destruct (existsb (py_eqb x) seen).
      * rewrite IH. split.
        -- intros (-> & y & Hy & Ey). split; [reflexivity|]. exists y. split; [right|]; assumption.
        -- intros (-> & y & [<-|Hy] & Ey); [congruence|].
           split; [reflexivity|]. exists y. split; assumption.
      * destruct (dedup (x :: seen) r) as [t|e'] eqn:Et; simpl.
        -- split; [discriminate|]. intros (-> & y & [<-|Hy] & Ey); [congruence|].
           assert (Hx : dedup (x :: seen) r = Err unhashable_err)
             by (apply IH; split; [reflexivity | exists y; split; assumption]).
           congruence.
        -- split.
           ++ intros Hee. injection Hee as <-.
              destruct (proj1 (IH (x :: seen)) Et) as (-> & y & Hy & Ey).
              split; [reflexivity|]. exists y. split; [right|]; assumption.
           ++ intros (-> & y & [<-|Hy] & Ey); [congruence|].
              assert (Hx : dedup (x :: seen) r = Err unhashable_err)
                by (apply IH; split; [reflexivity | exists y; split; assumption]).
              congruence.
    + split; [intros Hee; injection Hee as <-|intros [-> _]; reflexivity].
      split; [reflexivity|]. exists x. split; [left; reflexivity | exact Hh].
Qed.

(** The deduplication of the referenced content ids keeps the input
    order and drops only repeats: the result is a subsequence of the
    input, no two of its ids are equal (in the sense of Python's [==], so
    [1] and [True] count as one), and every input id equals one of them. It fails, with [TypeError], exactly when
    some id is unhashable (a list or a dict). *)
Theorem dedup_first_occurrences (content_ids : list val) :
  (forall u, dedup [] content_ids = Ok u ->
     subseq u content_ids /\ ForallOrdPairs (fun a b => py_eqb a b = false) u /\
     forall x, In x content_ids -> exists y, In y u /\ py_eqb x y = true) /\
  (forall e, dedup [] content_ids = Err e <->
     e = unhashable_err /\ exists x, In x content_ids /\ hashable x = false).
Proof.
  split.
  - intros u H. destruct (dedup_ok_gen [] content_ids u H) as (S & O & _ & C).
    split; [exact S|]. split; [exact O|].
    intros x Hx. destruct (C x Hx) as [Hs|Hy]; [discriminate | exact Hy].
  - intros e. apply dedup_err_gen.
Qed.

Lemma dedup_first_occurrences_witness :
  dedup [] [VStr "a"; VNum 1; VStr "a"; VBool true; VStr "b"] = Ok [VStr "a"; VNum 1; VStr "b"] /\
  subseq [VStr "a"; VNum 1; VStr "b"] [VStr "a"; VNum 1; VStr "a"; VBool true; VStr "b"] /\
  dedup [] [VStr "a"; VList []] = Err unhashable_err.
Proof.
  destruct (dedup_first_occurrences [VStr "a"; VNum 1; VStr "a"; VBool true; VStr "b"])
    as [H _].
  destruct (dedup_first_occurrences [VStr "a"; VList []]) as [_ H'].
  split; [reflexivity|]. split.
  - apply H. reflexivity.
  - apply H'. split; [reflexivity|]. exists (VList []). split; [right; left|]; reflexivity.
Defined.

(** ** The scan: what [chunk_by_content_id] records *)

(** A source file the scan does not skip. *)
Definition usable (f : FileMeta) : bool :=
  negb (String.eqb f.(f_id) "") && negb (String.eqb f.(f_checksum) "").

(** An entry [cid -> (chunk, file_uuid, file_name)] is justified by the
    supplied files: [cid] is the content id of [chunk] under a variant of
    the id of a usable file with that id and name, and the search service
    returned [chunk] for that file's checksum. *)
Definition provenance (svc : SearchService) (files : list FileMeta)
  (e : string * (Chunk * string * string)) : Prop :=
  let '(cid, (ch, fid, fname)) := e in
  exists f v, In f files /\ usable f = true /\ f.(f_id) = fid /\ f.(f_name) = fname /\
    In ch (svc.(get_document_chunks) f.(f_checksum)) /\ ch.(ch_id) <> ""%string /\
    In v (_doc_id_variants fid) /\ cid = _content_id v ch.(ch_id).

(** How a later scan state relates to an earlier one. *)
Definition scan_inv (svc : SearchService) (files : list FileMeta) (st st' : scan_state)
  : Prop :=
  (Forall (provenance svc files) (chunk_by_content_id st) ->
   Forall (provenance svc files) (chunk_by_content_id st')) /\
  (forall x, In x (remaining st) ->
     In x (remaining st') \/ lookup_cid (chunk_by_content_id st') x <> None) /\
  (forall x, lookup_cid (chunk_by_content_id st) x <> None ->
     lookup_cid (chunk_by_content_id st') x <> None).

Lemma scan_inv_refl svc files st : scan_inv svc files st st.
Proof. split; [tauto|]. split; [intros x H; left; exact H | tauto]. Qed.

Lemma scan_inv_trans svc files st1 st2 st3 :
  scan_inv svc files st1 st2 -> scan_inv svc files st2 st3 -> scan_inv svc files st1 st3.
Proof.
  intros (P1 & R1 & L1) (P2 & R2 & L2). split; [tauto|]. split; [|auto].
  intros x Hx. destruct (R1 x Hx) as [H|H]; [exact (R2 x H) | right; exact (L2 x H)].
Qed.

Lemma lookup_cid_some m x e :
  lookup_cid m x = Some e -> exists k, In (k, e) m /\ py_eqb (VStr k) x = true.
Proof.
  induction m as [|[k e'] r IH]; cbn [lookup_cid]; [discriminate|].
  destruct (py_eqb (VStr k) x) eqn:E.
  - intros H. injection H as <-. exists k. split; [left; reflexivity | exact E].
  - intros H. destruct (IH H) as (k' & Hk & Ek). exists k'. split; [right; exact Hk | exact Ek].
Qed.

Lemma lookup_cid_congr m a b : py_eqb a b = true -> lookup_cid m a = lookup_cid m b.
Proof.
  intros Hab. induction m as [|[k e] r IH]; cbn [lookup_cid]; [reflexivity|].
  destruct (py_eqb (VStr k) a) eqn:Ea, (py_eqb (VStr k) b) eqn:Eb; try exact IH; try reflexivity.
  - rewrite (py_eqb_trans _ _ _ Ea Hab) in Eb. discriminate.
  - rewrite py_eqb_sym in Hab. rewrite (py_eqb_trans _ _ _ Eb Hab) in Ea. discriminate.
Qed.

Lemma scan_candidates_inv svc files f ch cands st :
  In f files -> usable f = true -> In ch (svc.(get_document_chunks) f.(f_checksum)) ->
  ch.(ch_id) <> ""%string -> incl cands (_doc_id_variants f.(f_id)) ->
  scan_inv svc files st (scan_candidates f ch cands st).
Proof.
  intros Hf Hu Hch Hid. revert st. induction cands as [|v r IH]; intros st Hc; cbn [scan_candidates].
  - apply scan_inv_refl.
  - destruct (existsb (py_eqb (VStr (_content_id v ch.(ch_id)))) (remaining st)) eqn:E.
    + set (st' := mkScan (filter (fun x => negb (py_eqb (VStr (_content_id v ch.(ch_id))) x))
                            (remaining st))
                    ((_content_id v ch.(ch_id), (ch, f.(f_id), f.(f_name)))
                       :: chunk_by_content_id st)).
      assert (Hs : scan_inv svc files st st').
      { split; [|split].
        - intros HF. constructor; [|exact HF].
          exists f, v. repeat (split; [first [assumption | reflexivity | apply Hc; left; reflexivity]|]).
          reflexivity.
        - intros x Hx. unfold st'; cbn [remaining chunk_by_content_id lookup_cid].
          destruct (py_eqb (VStr (_content_id v ch.(ch_id))) x) eqn:Ex.
          + right. discriminate.
          + left. apply filter_In. split; [exact Hx|]. rewrite Ex. reflexivity.
        - intros x Hx. unfold st'; cbn [chunk_by_content_id lookup_cid].
          destruct (py_eqb _ x); [discriminate | exact Hx]. }
      destruct (remaining_empty st'); [exact Hs|].
      apply (scan_inv_trans _ _ _ _ _ Hs). apply IH. intros y Hy. apply Hc. right. exact Hy.
    + apply IH. intros y Hy. apply Hc. right. exact Hy.
Qed.

Lemma scan_chunks_inv svc files f chs st :
  In f files -> usable f = true -> incl chs (svc.(get_document_chunks) f.(f_checksum)) ->
  scan_inv svc files st (scan_chunks f (_doc_id_variants f.(f_id)) chs st).
Proof.
  intros Hf Hu. revert st. induction chs as [|ch r IH]; intros st Hc; cbn [scan_chunks].
  - apply scan_inv_refl.
  - assert (Hr : incl r (get_document_chunks svc (f_checksum f)))
      by (intros y Hy; apply Hc; right; exact Hy).
    destruct (String.eqb_spec ch.(ch_id) "") as [_|Hid]; [exact (IH st Hr)|].
    assert (Hs := scan_candidates_inv svc files f ch (_doc_id_variants f.(f_id)) st Hf Hu
                    (Hc ch (or_introl eq_refl)) Hid (incl_refl _)).
    destruct (remaining_empty _); [exact Hs|].
    exact (scan_inv_trans _ _ _ _ _ Hs (IH _ Hr)).
Qed.

Lemma scan_files_inv svc files fs st trace :
  incl fs files -> scan_inv svc files st (fst (scan_files svc fs st trace)).
Proof.
  revert st trace. induction fs as [|f r IH]; intros st trace Hc; cbn [scan_files fst].
  - apply scan_inv_refl.
  - assert (Hr : incl r files) by (intros y Hy; apply Hc; right; exact Hy).
    destruct (String.eqb f.(f_id) "" || String.eqb f.(f_checksum) "") eqn:E; [exact (IH _ _ Hr)|].
    assert (Hu : usable f = true)
      by (unfold usable; apply orb_false_iff in E as [E1 E2]; rewrite E1, E2; reflexivity).
    assert (Hs := scan_chunks_inv svc files f (get_document_chunks svc f.(f_checksum)) st
                    (Hc f (or_introl eq_refl)) Hu (incl_refl _)).
    destruct (remaining_empty _); [exact Hs|].
    exact (scan_inv_trans _ _ _ _ _ Hs (IH _ _ Hr)).
Qed.

Lemma scan_lookup_after svc files u trace x :
  In x u -> ~ In x (remaining (fst (scan_files svc files (mkScan u []) trace))) ->
  exists cid ch fid fname,
    x = VStr cid /\
    lookup_cid (chunk_by_content_id (fst (scan_files svc files (mkScan u []) trace))) x =
      Some (ch, fid, fname) /\
    provenance svc files (cid, (ch, fid, fname)).
Proof.
  intros Hx Hn. destruct (scan_files_inv svc files files (mkScan u []) trace (incl_refl _))
    as (P & R & _).
  destruct (R x Hx) as [H|H]; [contradiction|].
  destruct (lookup_cid _ x) as [[[ch fid] fname]|] eqn:El; [|congruence].
  destruct (lookup_cid_some _ _ _ El) as (k & Hk & Ek).
  exists k, ch, fid, fname. split; [exact (py_eqb_VStr k x Ek)|]. split; [reflexivity|].
  specialize (P (Forall_nil _)). rewrite Forall_forall in P. exact (P _ Hk).
Qed.

(** Every content id the scan resolves is recorded in [chunk_by_content_id]
    with the chunk it was derived from: the id is a string, it is the
    content id of that chunk under a variant of the recorded file id, and
    the recorded file id and name are those of a usable supplied file for
    whose checksum the search service returned the chunk. *)
Theorem scan_resolution_sound (svc : SearchService) (files : list FileMeta)
  (u : list val) (trace : list event) (x : val) :
  In x u -> ~ In x (remaining (fst (scan_files svc files (mkScan u []) trace))) ->
  exists cid ch fid fname f v,
    x = VStr cid /\
    lookup_cid (chunk_by_content_id (fst (scan_files svc files (mkScan u []) trace))) x =
      Some (ch, fid, fname) /\
    In f files /\ usable f = true /\ f.(f_id) = fid /\ f.(f_name) = fname /\
    In ch (svc.(get_document_chunks) f.(f_checksum)) /\ ch.(ch_id) <> ""%string /\
    In v (_doc_id_variants fid) /\ cid = _content_id v ch.(ch_id).
Proof.
  intros Hx Hn. destruct (scan_lookup_after svc files u trace x Hx Hn)
    as (cid & ch & fid & fname & E & L & f & v & P).
  exists cid, ch, fid, fname, f, v. tauto.
Qed.

Lemma scan_resolution_sound_witness :
  exists cid ch fid fname f v,
    VStr (_content_id "d1" "ch2") = VStr cid /\
    lookup_cid (chunk_by_content_id (fst (scan_files demo_service [mkFile "d1" "c1" "doc"]
                  (mkScan [VStr (_content_id "d1" "ch2")] []) [])))
      (VStr (_content_id "d1" "ch2")) = Some (ch, fid, fname) /\
    In f [mkFile "d1" "c1" "doc"] /\ usable f = true /\ f.(f_id) = fid /\ f.(f_name) = fname /\
    In ch (demo_service.(get_document_chunks) f.(f_checksum)) /\ ch.(ch_id) <> ""%string /\
    In v (_doc_id_variants fid) /\ cid = _content_id v ch.(ch_id).
Proof.
  apply scan_resolution_sound.
  - left. reflexivity.
  - vm_compute. intros [].
Defined.

(** ** Interactions with the search service *)

Lemma scan_files_trace svc files st trace :
  exists k,
    snd (scan_files svc files st trace) =
      (trace ++ map (fun f => EvGetChunks f.(f_checksum)) (firstn k (filter usable files)))%list /\
    (remaining (fst (scan_files svc files st trace)) <> [] ->
     k = length (filter usable files)).
Proof.
  revert st trace. induction files as [|f r IH]; intros st trace; cbn [scan_files].
  - exists O. simpl. rewrite app_nil_r. split; [reflexivity | intros _; reflexivity].
  - assert (Hf : filter usable (f :: r) =
                  if usable f then f :: filter usable r else filter usable r) by reflexivity.
    rewrite Hf.
    destruct (String.eqb f.(f_id) "" || String.eqb f.(f_checksum) "") eqn:E.
    + assert (Hu : usable f = false)
        by (unfold usable; apply orb_true_iff in E as [E|E]; rewrite E;
            [reflexivity | apply andb_false_r]).
      rewrite Hu. apply IH.
    + assert (Hu : usable f = true)
        by (unfold usable; apply orb_false_iff in E as [E1 E2]; rewrite E1, E2; reflexivity).
      rewrite Hu.
      unfold remaining_empty.
      destruct (remaining (scan_chunks f (_doc_id_variants f.(f_id))
                             (get_document_chunks svc f.(f_checksum)) st)) as [|y ys] eqn:R.
      * exists 1%nat. cbn [fst snd firstn map]. rewrite R.
        split; [reflexivity | intros H; congruence].
      * destruct (IH (scan_chunks f (_doc_id_variants f.(f_id))
                        (get_document_chunks svc f.(f_checksum)) st)
                     (trace ++ [EvGetChunks f.(f_checksum)])%list) as (k & Ht & Hk).
        exists (S k). rewrite Ht. cbn [firstn map length].
        split; [rewrite <- app_assoc; reflexivity|].
        intros H. rewrite (Hk H). reflexivity.
Qed.

(** The service interactions of an enrichment run. Malformed or
    unhashable cited ids fail before any interaction. Otherwise the client
    is created, started only when its session is not open yet, and then the
    chunks of a prefix of the usable source files (those with an id and a
    checksum) are fetched, once per file, in the order of the files; when
    some id stays unresolved, that prefix is all the usable files. *)
Theorem enrich_service_calls (svc : SearchService) (flow_outputs : list (string * val))
  (source_files : list FileMeta) :
  (forall e, collect_content_ids flow_outputs = Err e ->
     _enrich_with_annotations svc flow_outputs source_files = (Err e, [])) /\
  (forall ids e, collect_content_ids flow_outputs = Ok ids -> ids <> [] ->
     dedup [] ids = Err e ->
     _enrich_with_annotations svc flow_outputs source_files = (Err e, [])) /\
  (forall ids u, collect_content_ids flow_outputs = Ok ids -> ids <> [] ->
     dedup [] ids = Ok u ->
     exists k,
       snd (_enrich_with_annotations svc flow_outputs source_files) =
         EvSearchClient :: ((if svc.(session_open) then [] else [EvStart]) ++
           map (fun f => EvGetChunks f.(f_checksum)) (firstn k (filter usable source_files)))%list /\
       (unresolved svc source_files u <> [] -> k = length (filter usable source_files))).
Proof.
  split; [|split].
  - intros e H. unfold _enrich_with_annotations. rewrite H. reflexivity.
  - intros ids e H Hn Hd. unfold _enrich_with_annotations. rewrite H.
    destruct ids as [|i is]; [congruence|]. rewrite Hd. reflexivity.
  - intros ids u H Hn Hd. unfold _enrich_with_annotations. rewrite H.
    destruct ids as [|i is]; [congruence|]. rewrite Hd.
    destruct (scan_files_trace svc source_files (mkScan u [])
                (EvSearchClient :: (if svc.(session_open) then [] else [EvStart])))
      as (k & Ht & Hk).
    pose proof (scan_files_remaining svc source_files (mkScan u [])
                  (EvSearchClient :: (if svc.(session_open) then [] else [EvStart]))) as Hr.
    destruct (scan_files _ _ _ _) as [st tr]. cbn [fst snd remaining] in Ht, Hk, Hr |- *.
    exists k. split; [exact Ht|].
    intros Hu. apply Hk. rewrite Hr. exact Hu.
Qed.

Lemma enrich_service_calls_witness :
  snd (_enrich_with_annotations (mkService false (get_document_chunks demo_service))
         c3_unresolved_outputs [mkFile "" "c0" "skipped"; mkFile "d1" "c1" "doc"]) =
    [EvSearchClient; EvStart; EvGetChunks "c1"].
Proof.
  destruct (enrich_service_calls (mkService false (get_document_chunks demo_service))
              c3_unresolved_outputs [mkFile "" "c0" "skipped"; mkFile "d1" "c1" "doc"])
    as (_ & _ & H).
  destruct (H [VStr "x"; VStr "x"] [VStr "x"]) as (k & Ht & Hk).
  - reflexivity.
  - discriminate.
  - reflexivity.
  - rewrite Ht, (Hk ltac:(vm_compute; discriminate)). reflexivity.
Defined.

(** ** When the enrichment succeeds *)

Lemma mapR_all_ok {A B} (f : A -> result B) (l : list A) :
  (forall x, In x l -> exists y, f x = Ok y) -> exists l', mapR f l = Ok l'.
Proof.
  induction l as [|a r IH]; intros H; [exists []; reflexivity|].
  destruct (H a (or_introl eq_refl)) as (y & Ey).
  destruct IH as (ys & Eys); [intros x Hx; apply H; right; exact Hx|].
  exists (y :: ys). simpl. rewrite Ey. simpl. rewrite Eys. reflexivity.
Qed.

Lemma jcids_of_dict x ids : jcids_of x = Ok ids -> exists d, x = VDict d.
Proof. destruct x as [| | | | |d]; intros H; try discriminate H. exists d. reflexivity. Qed.

Lemma enrich_record_total m x ids :
  jcids_of x = Ok ids ->
  (forall i, In i ids -> hashable i = true /\ lookup_cid m i <> None) ->
  exists y, enrich_record m x = Ok y.
Proof.
  intros Hj Hg. unfold enrich_record. rewrite Hj. cbn [bind].
  assert (Hb : exists ac, _build_annotations_for m ids = Ok ac).
  { unfold _build_annotations_for.
    match goal with |- context [mapR ?f ids] => destruct (mapR_all_ok f ids) as (ps & Ep) end.
    - intros i Hi. destruct (Hg i Hi) as [Hh Hl]. cbv beta. rewrite Hh. cbn [negb].
      destruct (lookup_cid m i) as [[[ch fu] fnm]|]; [eexists; reflexivity | congruence].
    - rewrite Ep. eexists. reflexivity. }
  destruct Hb as (ac & Eb). rewrite Eb. cbn [bind].
  destruct (jcids_of_dict x ids Hj) as (d & ->). eexists. reflexivity.
Qed.

Lemma concat_In {A} (x : A) (l : list A) (ls : list (list A)) :
  In l ls -> In x l -> In x (concat ls).
Proof. intros Hl Hx. apply in_concat. exists l. split; assumption. Qed.

(** The converse of the fail-closed rule: when every cited id is hashable
    and each is matched by some chunk of a usable source file, the
    enrichment returns the updated outputs, provided the outputs do not
    hold both a [final_result] and an [answers] entry (with both, the
    answers are rewritten although only the ids of [final_result] were
    looked up). *)
Theorem enrich_succeeds_when_resolved (svc : SearchService)
  (flow_outputs : list (string * val)) (source_files : list FileMeta) (ids u : list val) :
  collect_content_ids flow_outputs = Ok ids -> dedup [] ids = Ok u ->
  unresolved svc source_files u = [] ->
  dget flow_outputs "final_result" = None \/ dget flow_outputs "answers" = None ->
  exists fo', fst (_enrich_with_annotations svc flow_outputs source_files) = Ok fo'.
Proof.
  intros Hc Hd Hun Hfa. unfold _enrich_with_annotations. rewrite Hc.
  destruct ids as [|i0 is0] eqn:Eids; [eexists; reflexivity|]. rewrite <- Eids in *.
  rewrite Hd.
  set (trace0 := EvSearchClient :: (if svc.(session_open) then [] else [EvStart])).
  pose proof (scan_files_remaining svc source_files (mkScan u []) trace0) as Hr.
  cbn [remaining] in Hr. fold (unresolved svc source_files u) in Hr. rewrite Hun in Hr.
  assert (Hg : forall i, In i ids ->
            hashable i = true /\
            lookup_cid (chunk_by_content_id (fst (scan_files svc source_files (mkScan u []) trace0))) i
              <> None).
  { intros i Hi. split.
    - destruct (hashable i) eqn:Hh; [reflexivity|].
      assert (He : dedup [] ids = Err unhashable_err)
        by (apply dedup_err_gen; split; [reflexivity | exists i; split; assumption]).
      congruence.
    - destruct (dedup_ok_gen [] ids u Hd) as (_ & _ & _ & C).
      destruct (C i Hi) as [Hs|(y & Hy & Ey)]; [discriminate|].
      rewrite (lookup_cid_congr _ _ _ Ey).
      assert (Hny : ~ In y (remaining (fst (scan_files svc source_files (mkScan u []) trace0))))
        by (rewrite Hr; intros []).
      destruct (scan_lookup_after svc source_files u trace0 y Hy Hny)
        as (cid & ch & fid & fname & _ & Hl & _).
      rewrite Hl. discriminate. }
  destruct (scan_files svc source_files (mkScan u []) trace0) as [st tr].
  cbn [fst] in Hr, Hg |- *. rewrite Hr. cbn [py_sorted].
  set (m := chunk_by_content_id st) in Hg |- *.
  unfold write_back, collect_content_ids, dmem, get_or in *.
  destruct (dget flow_outputs "final_result") as [fr|] eqn:Ef.
  - destruct Hfa as [Hfa|Hfa]; [discriminate|].
    destruct (enrich_record_total m fr ids Hc Hg) as (y & Ey). rewrite Ey. cbn [bind].
    rewrite dget_dset_other by discriminate. rewrite Hfa. eexists. reflexivity.
  - cbn [bind]. destruct (dget flow_outputs "answers") as [av|] eqn:Ea;
      [|rewrite Eids in Hc; simpl in Hc; discriminate Hc].
    destruct (py_list (py_or av (VList []))) as [items|] eqn:Ei; [|discriminate].
    cbn [bind] in Hc |- *.
    destruct (mapR jcids_of items) as [per|] eqn:Ep; [|discriminate].
    cbn [bind] in Hc. injection Hc as Hc.
    destruct (mapR_all_ok (enrich_record m) items) as (items' & Ei').
    + intros x Hx. destruct (mapR_In_ok _ _ _ x Ep Hx) as (ix & Hix & Ex).
      apply (enrich_record_total m x ix Ex).
      intros i Hi. apply Hg. rewrite <- Hc. exact (concat_In i ix per Hix Hi).
    + rewrite Ei'. cbn [bind]. destruct av; eexists; reflexivity.
Qed.

Lemma enrich_succeeds_when_resolved_witness :
  exists fo', fst (_enrich_with_annotations demo_service demo_outputs [mkFile "d1" "c1" "doc"])
                = Ok fo'.
Proof.
  apply (enrich_succeeds_when_resolved demo_service demo_outputs [mkFile "d1" "c1" "doc"]
           [VStr (_content_id "d1" "ch1")] [VStr (_content_id "d1" "ch1")]).
  - reflexivity.
  - vm_compute. reflexivity.
  - vm_compute. reflexivity.
  - right. reflexivity.
Defined.

(** ** Round trip: enrichment annotations read back by the output mapper *)

(** The bounding boxes of a chunk, in order; the positions of other kinds
    are dropped. *)
Definition chunk_bboxes (ch : Chunk) : list position :=
  flat_map (fun o => match o with Some p => [p] | None => [] end) ch.(ch_positions).

Lemma positions_parse float_of_str int_of_str (ops : list (option position)) :
  mapR (build_position float_of_str int_of_str)
    (flat_map (fun o =>
       match o with
       | Some (x0, y0, x1, y1, pg) =>
           [VDict [("bboxPosition",
                    VDict [("bbox", VDict [("x0", VNum x0); ("y0", VNum y0);
                                           ("x1", VNum x1); ("y1", VNum y1)]);
                           ("pageNumber", VNum pg)])]]
       | None => []
       end) ops) =
  Ok (map Some (flat_map (fun o => match o with Some p => [p] | None => [] end) ops)).
Proof.
  induction ops as [|[[[[[x0 y0] x1] y1] pg]|] r IH]; [reflexivity| |exact IH].
  cbn [flat_map app mapR]. unfold bind at 1. cbn - [mapR]. rewrite IH. reflexivity.
Qed.

Lemma flat_map_some {A} (l : list A) :
  flat_map (fun o => match o with Some a => [a] | None => [] end) (map Some l) = l.
Proof. induction l as [|a r IH]; simpl; [reflexivity | rewrite IH; reflexivity]. Qed.

Lemma lookup_cid_str m x e : lookup_cid m x = Some e -> exists s, x = VStr s.
Proof.
  induction m as [|[k e'] r IH]; cbn [lookup_cid]; [discriminate|].
  destruct (py_eqb (VStr k) x) eqn:E; [|exact IH].
  intros _. exists k. apply py_eqb_VStr. exact E.
Qed.

(** The annotation dicts written by the enrichment are read back by
    [OutputMapper._build_annotations] without loss: one annotation per
    cited id, in order, whose id is the content id and whose document id,
    document name, content and bounding boxes are those of the chunk found
    for it. Only the positions without a bounding box are dropped, as the
    enrichment already drops them. *)
Theorem enrichment_annotations_round_trip float_of_str int_of_str
  (m : list (string * (Chunk * string * string))) (ids anns cids : list val) :
  _build_annotations_for m ids = Ok (anns, cids) ->
  exists anns',
    build_annotations float_of_str int_of_str (VList anns) = Ok anns' /\
    map VStr (map ann_id anns') = ids /\
    Forall2 (fun cid a =>
      exists ch, lookup_cid m cid = Some (ch, a.(ann_documentId), a.(ann_documentName)) /\
                 a.(ann_content) = ch.(ch_content) /\ a.(ann_positions) = chunk_bboxes ch)
      ids anns'.
Proof.
  unfold _build_annotations_for. intros H.
  destruct (mapR _ ids) as [pairs|] eqn:Ep; [|discriminate].
  cbn [bind] in H. injection H as Ha _. subst anns.
  unfold build_annotations. cbn [py_list bind].
  revert pairs Ep. induction ids as [|i r IH]; intros pairs Ep.
  - cbn [mapR] in Ep. injection Ep as <-. exists []. split; [reflexivity|].
    split; [reflexivity | constructor].
  - cbn [mapR] in Ep. destruct (hashable i); [|discriminate]. cbn [negb] in Ep.
    destruct (lookup_cid m i) as [[[ch fu] fnm]|] eqn:El; [|discriminate].
    cbn [bind] in Ep.
    destruct (mapR _ r) as [ps|] eqn:Er; [|discriminate]. cbn [bind] in Ep.
    injection Ep as <-.
    destruct (IH ps eq_refl) as (anns' & Hb & Hid & Hf).
    destruct (lookup_cid_str m i _ El) as (s & ->).
    exists (mkAnnotation s fu fnm ch.(ch_content) (chunk_bboxes ch) :: anns').
    cbn [map fst mapR]. unfold build_annotation at 1.
    cbn [get_or dget String.eqb Ascii.eqb Bool.eqb truthy negb dict_get bind py_list proto_str].
    unfold _positions_list. rewrite positions_parse. cbn [bind].
    destruct (mapR (build_annotation float_of_str int_of_str) (map fst ps)) as [xs|];
      [|discriminate].
    cbn [bind] in Hb |- *. injection Hb as <-.
    split; [rewrite flat_map_some; reflexivity|].
    split; [cbn [map ann_id]; rewrite Hid; reflexivity|].
    constructor; [|exact Hf].
    exists ch. split; [exact El|]. split; reflexivity.
Qed.

Lemma enrichment_annotations_round_trip_witness :
  exists anns',
    build_annotations no_float no_float
      (VList [VDict [("id", VStr "cid1");
                     ("documentStatement",
                      VDict [("documentId", VStr "d1"); ("documentName", VStr "doc");
                             ("content", VStr "first");
                             ("positions", VList (_positions_list
                                (mkChunk "ch1" "first" [Some (1, 2, 3, 4, 5)%Z; None])))])]])
      = Ok anns' /\
    map VStr (map ann_id anns') = [VStr "cid1"] /\
    Forall2 (fun cid a =>
      exists ch, lookup_cid [("cid1", (mkChunk "ch1" "first" [Some (1, 2, 3, 4, 5)%Z; None],
                                       "d1", "doc"))] cid =
                   Some (ch, a.(ann_documentId), a.(ann_documentName)) /\
                 a.(ann_content) = ch.(ch_content) /\ a.(ann_positions) = chunk_bboxes ch)
      [VStr "cid1"] anns'.
Proof.
  apply (enrichment_annotations_round_trip no_float no_float
           [("cid1", (mkChunk "ch1" "first" [Some (1, 2, 3, 4, 5)%Z; None], "d1", "doc"))]
           [VStr "cid1"] _ [VStr "cid1"]).
  vm_compute. reflexivity.
Defined.

(** ** [InputMapper] *)

(** The [FileMetaData] message, with the fields the input mapper reads
    ([getattr(f, "path", "")] and the like read the message field). *)
Record FileMetaData : Type := mkFileMetaData {
  fmd_id : string;
  fmd_name : string;
  fmd_checksum : string;
  fmd_path : string;
  fmd_extension : string;
  fmd_providerId : string
}.

(** The [Question] message as the input mapper reads it. [qm_answerType]
    is [MessageToDict(q.answerType, ...)] when [q.HasField("answerType")],
    [None] when the field is unset. *)
Record QuestionMsg : Type := mkQuestionMsg {
  qm_id : string;
  qm_question : string;
  qm_answerType : option (list (string * val));
  qm_guidelines : string;
  qm_expectedAnswer : string;
  qm_inputQuestionIds : list string
}.

(** [InputMapper.files_to_dicts] *)
Definition files_to_dicts (files : list FileMetaData) : list val :=
  map (fun f => VDict [("id", VStr f.(fmd_id)); ("name", VStr f.(fmd_name));
                       ("checksum", VStr f.(fmd_checksum)); ("path", VStr f.(fmd_path));
                       ("extension", VStr f.(fmd_extension));
                       ("providerId", VStr f.(fmd_providerId))]) files.

(** [InputMapper.questions_to_dicts]; [q.expectedAnswer] of the message is
    always a [str]. *)
Definition questions_to_dicts (questions : list QuestionMsg) : list val :=
  map (fun q =>
         let answer_type_dict :=
           match q.(qm_answerType) with Some d => d | None => [] end in
         VDict [("id", VStr q.(qm_id)); ("question", VStr q.(qm_question));
                ("answerType", VDict answer_type_dict);
                ("guidelines", VStr q.(qm_guidelines));
                ("expectedAnswer", VStr q.(qm_expectedAnswer));
                ("inputQuestionIds", VList (map VStr q.(qm_inputQuestionIds)))]) questions.

Definition first_query (questions : list QuestionMsg) : string :=
  match questions with q :: _ => q.(qm_question) | [] => "" end.

(** [InputMapper.build_flow_inputs]; [extra_params] is [None] or a
    [dict[str, str]]. *)
Definition build_flow_inputs (files : list FileMetaData) (questions : list QuestionMsg)
  (extra_params : option (list (string * string))) : list (string * val) :=
  let inputs :=
    [("file_ids", VList (map (fun f => VStr f.(fmd_id)) files));
     ("query", VStr (first_query questions));
     ("previous_answers", VList []);
     ("files", VList (files_to_dicts files));
     ("questions", VList (questions_to_dicts questions))] in
  match extra_params with
  | Some ((_ :: _) as ps) =>
      dset inputs "extra_params" (VDict (map (fun kv => (fst kv, VStr (snd kv))) ps))
  | _ => inputs
  end.

(** [dict.update(other)] for a dict [other]. *)
Definition dict_update (d other : list (string * val)) : list (string * val) :=
  fold_left (fun acc kv => dset acc (fst kv) (snd kv)) other d.

(** The inputs before the merge of the additional parameters. *)
Definition standard_custom_inputs (first_source_files second_source_files : list FileMetaData)
  (questions : list QuestionMsg) : list (string * val) :=
  [("first_source_file_ids", VList (map (fun f => VStr f.(fmd_id)) first_source_files));
   ("second_source_file_ids", VList (map (fun f => VStr f.(fmd_id)) second_source_files));
   ("query", VStr (first_query questions));
   ("questions", VList (questions_to_dicts questions));
   ("previous_answers", VList [])].

(** [InputMapper.build_custom_workflow_inputs]; [additional_params] is
    [None] or a [dict[str, Any]], merged only when non-empty. *)
Definition build_custom_workflow_inputs (first_source_files second_source_files : list FileMetaData)
  (questions : list QuestionMsg) (additional_params : option (list (string * val)))
  : list (string * val) :=
  let inputs := standard_custom_inputs first_source_files second_source_files questions in
  match additional_params with
  | Some ((_ :: _) as ps) => dict_update inputs ps
  | _ => inputs
  end.

(** *** Properties of the input mapper *)

Lemma dkeys_dset (d : list (string * val)) (k : string) (v : val) :
  dkeys (dset d k v) = if str_in k (dkeys d) then dkeys d else (dkeys d ++ [k])%list.
Proof.
  induction d as [|[k' v'] r IH]; [reflexivity|].
  cbn [dset dkeys map fst]. unfold str_in. cbn [existsb].
  destruct (String.eqb_spec k' k) as [->|Hne].
  - rewrite String.eqb_refl. reflexivity.
  - assert (E : String.eqb k k' = false) by (apply String.eqb_neq; congruence).
    rewrite E. cbn [orb map fst]. fold (str_in k (map fst r)).
    unfold dkeys in *. rewrite IH. destruct (str_in k (map fst r)); reflexivity.
Qed.

Lemma dict_update_get (d ps : list (string * val)) (k : string) :
  NoDup (dkeys ps) ->
  dget (dict_update d ps) k = match dget ps k with Some v => Some v | None => dget d k end.
Proof.
  revert d. induction ps as [|[k0 v0] r IH]; intros d Hn; [reflexivity|].
  inversion Hn as [|? ? Hk0 Hr]; subst.
  unfold dict_update. cbn [fold_left fst snd]. fold (dict_update (dset d k0 v0) r).
  rewrite (IH _ Hr). cbn [dget].
  destruct (String.eqb_spec k0 k) as [->|Hne].
  - assert (Hr' : dget r k = None).
    { destruct (dget r k) eqn:E; [|reflexivity]. exfalso. apply Hk0.
      clear -E. induction r as [|[k1 v1] r IH]; cbn [dget] in E; [discriminate|].
      destruct (String.eqb_spec k1 k) as [->|_]; [left; reflexivity | right; exact (IH E)]. }
    rewrite Hr', dget_dset_same. reflexivity.
  - rewrite (dget_dset_other _ _ _ _ Hne). reflexivity.
Qed.

Lemma dict_update_keys (d ps : list (string * val)) :
  NoDup (dkeys ps) ->
  dkeys (dict_update d ps) =
    (dkeys d ++ filter (fun k => negb (str_in k (dkeys d))) (dkeys ps))%list.
Proof.
  revert d. induction ps as [|[k0 v0] r IH]; intros d Hn; [cbn; rewrite app_nil_r; reflexivity|].
  inversion Hn as [|? ? Hk0 Hr]; subst.
  unfold dict_update. cbn [fold_left fst snd]. fold (dict_update (dset d k0 v0) r).
  rewrite (IH _ Hr), dkeys_dset. cbn [dkeys map fst filter]. fold (dkeys r).
  destruct (str_in k0 (dkeys d)) eqn:Ei; cbn [negb]; [reflexivity|].
  rewrite <- app_assoc. cbn [app]. f_equal. f_equal.
  apply filter_ext_in. intros k Hk. f_equal. unfold str_in. rewrite existsb_app.
  cbn [existsb]. destruct (String.eqb_spec k k0) as [->|_]; [contradiction|].
  rewrite orb_false_r. reflexivity.
Qed.

Definition standard_custom_keys : list string :=
  ["first_source_file_ids"; "second_source_file_ids"; "query"; "questions"; "previous_answers"].

(** [inputs.update(additional_params)] in [build_custom_workflow_inputs]:
    an additional parameter overrides the standard input of the same name
    (even [query] or [questions]), every other standard input is kept, and
    the standard inputs keep their order, followed by the new parameter
    names in their order. *)
Theorem custom_inputs_merge (first_source_files second_source_files : list FileMetaData)
  (questions : list QuestionMsg) (additional_params : list (string * val)) :
  NoDup (dkeys additional_params) ->
  (forall k,
     dget (build_custom_workflow_inputs first_source_files second_source_files questions
             (Some additional_params)) k =
     match dget additional_params k with
     | Some v => Some v
     | None => dget (standard_custom_inputs first_source_files second_source_files questions) k
     end) /\
  dkeys (build_custom_workflow_inputs first_source_files second_source_files questions
           (Some additional_params)) =
    (standard_custom_keys ++
     filter (fun k => negb (str_in k standard_custom_keys)) (dkeys additional_params))%list.
Proof.
  intros Hn. destruct additional_params as [|kv r] eqn:Ep.
  - split; [reflexivity|]. reflexivity.
  - rewrite <- Ep in *. unfold build_custom_workflow_inputs. rewrite Ep. rewrite <- Ep.
    split; [intros k; apply dict_update_get; exact Hn|].
    apply dict_update_keys. exact Hn.
Qed.

Lemma custom_inputs_merge_witness :
  dget (build_custom_workflow_inputs [] [] [mkQuestionMsg "q1" "What?" None "" "" []]
          (Some [("query", VStr "override"); ("top_k", VNum 5)])) "query"
    = Some (VStr "override") /\
  dkeys (build_custom_workflow_inputs [] [] [mkQuestionMsg "q1" "What?" None "" "" []]
          (Some [("query", VStr "override"); ("top_k", VNum 5)]))
    = (standard_custom_keys ++ ["top_k"])%list.
Proof.
  destruct (custom_inputs_merge [] [] [mkQuestionMsg "q1" "What?" None "" "" []]
              [("query", VStr "override"); ("top_k", VNum 5)]) as [Hg Hk].
  - repeat constructor; simpl; intuition discriminate.
  - split; [rewrite Hg; reflexivity | rewrite Hk; reflexivity].
Defined.

(** ** Branches of [_resolve_flow_and_params] *)

Lemma existsb_py_eqb_In (s : string) (l : list val) :
  In (VStr s) l -> existsb (py_eqb (VStr s)) l = true.
Proof.
  intros H. apply existsb_exists. exists (VStr s). split; [exact H|].
  apply py_eqb_refl. reflexivity.
Qed.

(** How a parsed [additional_inputs] value is used. A value for which
    [in] finds both ["flow_id"] and ["steps"] is returned as the flow
    itself, with no parameters and without loading any named flow; this
    includes a JSON list holding both strings. A dict lacking either key
    becomes the additional parameters of the named flow ([workflow_id], or
    [qa_default]). A JSON number, boolean or [null] makes [in] raise a
    [TypeError], which the [except json.JSONDecodeError] does not catch;
    no flow is loaded then either. *)
Theorem resolve_flow_branches json_loads load_by_name (workflow_id s : string) (data : val) :
  s <> ""%string -> json_loads s = JsonOk data ->
  (py_contains "flow_id" data = Ok true -> py_contains "steps" data = Ok true ->
     fst (_resolve_flow_and_params json_loads load_by_name workflow_id s) = Ok (data, VDict []) /\
     forall load_by_name',
       _resolve_flow_and_params json_loads load_by_name' workflow_id s =
       _resolve_flow_and_params json_loads load_by_name workflow_id s) /\
  (forall l, data = VList l -> In (VStr "flow_id") l -> In (VStr "steps") l ->
     fst (_resolve_flow_and_params json_loads load_by_name workflow_id s) = Ok (data, VDict [])) /\
  (forall d, data = VDict d -> dmem d "flow_id" && dmem d "steps" = false ->
     fst (_resolve_flow_and_params json_loads load_by_name workflow_id s) =
       (let* flow_dict :=
          load_by_name (if String.eqb workflow_id "" then "qa_default" else workflow_id) in
        Ok (flow_dict, data))) /\
  (match data with VNone | VBool _ | VNum _ => True | _ => False end ->
     fst (_resolve_flow_and_params json_loads load_by_name workflow_id s) =
       Err (TypeError (MText "argument of type is not iterable")) /\
     forall load_by_name',
       _resolve_flow_and_params json_loads load_by_name' workflow_id s =
       _resolve_flow_and_params json_loads load_by_name workflow_id s).
Proof.
  intros Hs Hj.
  assert (Hne : String.eqb s "" = false) by (apply String.eqb_neq; exact Hs).
  unfold _resolve_flow_and_params. rewrite Hne, Hj.
  split; [|split; [|split]].
  - intros Hf Hst. rewrite Hf, Hst. split; reflexivity.
  - intros l -> Hf Hst. cbn [py_contains].
    rewrite (existsb_py_eqb_In _ _ Hf), (existsb_py_eqb_In _ _ Hst). reflexivity.
  - intros d -> Hd. cbn [py_contains].
    destruct (dmem d "flow_id"); cbn [andb] in Hd; [rewrite Hd|]; reflexivity.
  - intros Hd. destruct data; try contradiction; split; reflexivity.
Qed.

Definition resolve_demo_json (s : string) : json_outcome :=
  if String.eqb s "list-json" then JsonOk (VList [VStr "flow_id"; VStr "steps"])
  else JsonDecodeError.

Lemma resolve_flow_branches_witness :
  fst (_resolve_flow_and_params resolve_demo_json (fun _ => Err (KeyError VNone)) "" "list-json") =
    Ok (VList [VStr "flow_id"; VStr "steps"], VDict []).
Proof.
  destruct (resolve_flow_branches resolve_demo_json (fun _ => Err (KeyError VNone)) "" "list-json"
              (VList [VStr "flow_id"; VStr "steps"])) as (_ & Hl & _).
  - discriminate.
  - reflexivity.
  - apply (Hl _ eq_refl); [left | right; left]; reflexivity.
Defined.

(** ** [FlowLoader] ([src/src/flow/flow_loader.py]) *)

(** The exceptions the loader raises itself, and those of the flow code
    or of the JSON parser, which it lets through. *)
Inductive loader_error : Type :=
| LImportError (path : string)
| LAttributeError (flow_name : string)
| LTypeError (flow_name : string)
| LFileNotFoundError (flow_name : string) (available : list string)
| LRaised (exn : string).

(** The outcome of a loading call: the flow dict, or the exception. *)
Inductive load_result : Type :=
| Loaded (v : val)
| LoadFailed (e : loader_error).

(** What [build_flow()] returns: an object with [model_dump] (a Pydantic
    [Flow], given by its dump), a dict, or anything else. *)
Inductive built_flow : Type :=
| BuiltModel (dump : val)
| BuiltDict (d : list (string * val))
| BuiltOther.

(** Importing [{flow_name}.py]: no module spec or loader, [exec_module]
    raising, no [build_flow] attribute, [build_flow()] raising, or the
    value it returns. *)
Inductive module_outcome : Type :=
| ModNoLoader
| ModExecRaises (exn : string)
| ModNoBuildFlow
| ModBuildRaises (exn : string)
| ModBuilt (f : built_flow).

(** The loader's [_cache] and the module names it put in [sys.modules]. *)
Record loader_state : Type := mkLoaderState {
  cache : list (string * val);
  sys_modules : list string
}.

(** [flows.add(x)] on a set kept as a duplicate-free list. *)
Definition set_add (l : list string) (x : string) : list string :=
  if str_in x l then l else (l ++ [x])%list.

(** The flows directory as the loader sees it: whether it exists, whether
    [{name}.py] and [{name}.json] exist in it, the stems of its [*.py] and
    [*.json] entries, the module each [.py] file defines and the result of
    [json.load] on each [.json] file. *)
Section FlowLoader.
Variable flows_dir_exists : bool.
Variable py_exists json_exists : string -> bool.
Variable py_stems json_stems : list string.
Variable import_flow_module : string -> module_outcome.
Variable read_json_flow : string -> load_result.

(** [FlowLoader._list_available_flows] *)
Definition _list_available_flows : list string :=
  if flows_dir_exists then
    let flows := fold_left set_add
                   (map (fun s => s ++ " (py)")
                        (filter (fun s => negb (String.eqb s "__init__")) py_stems)) [] in
    let flows := fold_left set_add (map (fun s => s ++ " (json)") json_stems) flows in
    sort_str flows
  else [].

Definition register_module (st : loader_state) (flow_name : string) : loader_state :=
  mkLoaderState st.(cache) (set_add st.(sys_modules) ("flow_" ++ flow_name)).

(** [FlowLoader._load_python_flow]: the module is put in [sys.modules]
    before it is executed. *)
Definition _load_python_flow (flow_name : string) (st : loader_state)
  : load_result * loader_state :=
  match import_flow_module flow_name with
  | ModNoLoader => (LoadFailed (LImportError (flow_name ++ ".py")), st)
  | ModExecRaises x => (LoadFailed (LRaised x), register_module st flow_name)
  | ModNoBuildFlow => (LoadFailed (LAttributeError flow_name), register_module st flow_name)
  | ModBuildRaises x => (LoadFailed (LRaised x), register_module st flow_name)
  | ModBuilt (BuiltModel v) => (Loaded v, register_module st flow_name)
  | ModBuilt (BuiltDict d) => (Loaded (VDict d), register_module st flow_name)
  | ModBuilt BuiltOther => (LoadFailed (LTypeError flow_name), register_module st flow_name)
  end.

Definition cache_put (st : loader_state) (flow_name : string) (v : val) : loader_state :=
  mkLoaderState (dset st.(cache) flow_name v) st.(sys_modules).

(** [FlowLoader.load_by_name] *)
Definition load_by_name (flow_name : string) (st : loader_state)
  : load_result * loader_state :=
  match dget st.(cache) flow_name with
  | Some v => (Loaded v, st)
  | None =>
      if py_exists flow_name then
        match _load_python_flow flow_name st with
        | (Loaded v, st') => (Loaded v, cache_put st' flow_name v)
        | (LoadFailed e, st') => (LoadFailed e, st')
        end
      else if json_exists flow_name then
        match read_json_flow flow_name with
        | Loaded v => (Loaded v, cache_put st flow_name v)
        | LoadFailed e => (LoadFailed e, st)
        end
      else (LoadFailed (LFileNotFoundError flow_name _list_available_flows), st)
  end.
End FlowLoader.

(** *** Properties of the flow loader *)

Lemma load_python_flow_state imp flow_name st :
  cache (snd (_load_python_flow imp flow_name st)) = cache st /\
  (sys_modules (snd (_load_python_flow imp flow_name st)) = sys_modules st \/
   sys_modules (snd (_load_python_flow imp flow_name st)) =
     set_add (sys_modules st) ("flow_" ++ flow_name)).
Proof.
  unfold _load_python_flow.
  destruct (imp flow_name) as [| | | |[| |]]; cbn [snd cache sys_modules register_module];
    (split; [reflexivity|]); [left | right ..]; reflexivity.
Qed.

(** A successful [load_by_name] caches the flow under its name and
    changes no other cache entry; loading the same name again returns the
    same flow and leaves the state as it is, whatever the flows directory
    holds by then (the files are not read again). *)
Theorem load_by_name_cached flows_dir_exists py_exists json_exists py_stems json_stems
  import_flow_module read_json_flow (flow_name : string) (st st' : loader_state) (v : val) :
  load_by_name flows_dir_exists py_exists json_exists py_stems json_stems
    import_flow_module read_json_flow flow_name st = (Loaded v, st') ->
  dget (cache st') flow_name = Some v /\
  (forall k, k <> flow_name -> dget (cache st') k = dget (cache st) k) /\
  (forall flows_dir_exists' py_exists' json_exists' py_stems' json_stems'
          import_flow_module' read_json_flow',
     load_by_name flows_dir_exists' py_exists' json_exists' py_stems' json_stems'
       import_flow_module' read_json_flow' flow_name st' = (Loaded v, st')).
Proof.
  intros H.
  assert (Hc : dget (cache st') flow_name = Some v /\
               (forall k, k <> flow_name -> dget (cache st') k = dget (cache st) k)).
  { unfold load_by_name in H. destruct (dget (cache st) flow_name) as [v0|] eqn:Ec.
    - injection H as <- <-. split; [exact Ec | reflexivity].
    - destruct (py_exists flow_name).
      + destruct (load_python_flow_state import_flow_module flow_name st) as [Hpc _].
        destruct (_load_python_flow import_flow_module flow_name st) as [[v1|e] st1];
          [|discriminate].
        injection H as <- <-. cbn [snd] in Hpc. unfold cache_put. cbn [cache].
        split; [apply dget_dset_same|]. intros k Hk.
        rewrite dget_dset_other by congruence. rewrite Hpc. reflexivity.
      + destruct (json_exists flow_name); [|discriminate].
        destruct (read_json_flow flow_name) as [v1|e]; [|discriminate].
        injection H as <- <-. unfold cache_put. cbn [cache].
        split; [apply dget_dset_same|]. intros k Hk.
        apply dget_dset_other. congruence. }
  destruct Hc as [Hs Ho]. split; [exact Hs|]. split; [exact Ho|].
  intros. unfold load_by_name. rewrite Hs. reflexivity.
Qed.

Lemma load_by_name_cached_witness :
  load_by_name true (fun _ => false) (fun _ => false) [] [] (fun _ => ModNoLoader)
    (fun _ => LoadFailed (LRaised "unreadable")) "qa_default"
    (snd (load_by_name true (fun n => String.eqb n "qa_default") (fun _ => false) [] []
            (fun _ => ModBuilt (BuiltDict [("flow_id", VStr "qa")])) (fun _ => LoadFailed (LRaised ""))
            "qa_default" (mkLoaderState [] []))) =
  (Loaded (VDict [("flow_id", VStr "qa")]),
   mkLoaderState [("qa_default", VDict [("flow_id", VStr "qa")])] ["flow_qa_default"]).
Proof.
  destruct (load_by_name_cached true (fun n => String.eqb n "qa_default") (fun _ => false) [] []
              (fun _ => ModBuilt (BuiltDict [("flow_id", VStr "qa")]))
              (fun _ => LoadFailed (LRaised "")) "qa_default" (mkLoaderState [] [])
              (mkLoaderState [("qa_default", VDict [("flow_id", VStr "qa")])] ["flow_qa_default"])
              (VDict [("flow_id", VStr "qa")])) as (_ & _ & H).
  - reflexivity.
  - apply H.
Defined.

(** A failed [load_by_name] caches nothing, so a later call reads the
    directory again; the only state it may leave behind is the
    [flow_<name>] entry of [sys.modules], put there before the module code
    ran. *)
Theorem load_by_name_failure_not_cached flows_dir_exists py_exists json_exists py_stems
  json_stems import_flow_module read_json_flow (flow_name : string) (st st' : loader_state)
  (e : loader_error) :
  load_by_name flows_dir_exists py_exists json_exists py_stems json_stems
    import_flow_module read_json_flow flow_name st = (LoadFailed e, st') ->
  cache st' = cache st /\
  (sys_modules st' = sys_modules st \/
   sys_modules st' = set_add (sys_modules st) ("flow_" ++ flow_name)).
Proof.
  intros H. unfold load_by_name in H.
  destruct (dget (cache st) flow_name); [discriminate|].
  destruct (py_exists flow_name).
  - pose proof (load_python_flow_state import_flow_module flow_name st) as Hp.
    destruct (_load_python_flow import_flow_module flow_name st) as [[v1|e1] st1];
      [discriminate|].
    injection H as _ <-. exact Hp.
  - destruct (json_exists flow_name).
    + destruct (read_json_flow flow_name); [discriminate|].
      injection H as _ <-. split; [reflexivity | left; reflexivity].
    + injection H as _ <-. split; [reflexivity | left; reflexivity].
Qed.

Lemma load_by_name_failure_not_cached_witness :
  cache (snd (load_by_name true (fun _ => true) (fun _ => true) [] []
                (fun _ => ModNoBuildFlow) (fun _ => Loaded (VDict [])) "broken"
                (mkLoaderState [] []))) = [].
Proof.
  destruct (load_by_name_failure_not_cached true (fun _ => true) (fun _ => true) [] []
              (fun _ => ModNoBuildFlow) (fun _ => Loaded (VDict [])) "broken"
              (mkLoaderState [] []) (mkLoaderState [] ["flow_broken"])
              (LAttributeError "broken")) as [Hc _].
  - reflexivity.
  - exact Hc.
Defined.

(** For a name not in the cache, an existing [{name}.py] decides the
    outcome alone: the [.json] file is neither consulted nor used as a
    fallback when the Python flow fails to load. With neither file, the
    call raises [FileNotFoundError] listing the available flows, and the
    state is unchanged. *)
Theorem load_by_name_python_first flows_dir_exists py_exists json_exists py_stems json_stems
  import_flow_module read_json_flow (flow_name : string) (st : loader_state) :
  dget (cache st) flow_name = None ->
  (py_exists flow_name = true ->
   forall json_exists' read_json_flow',
     load_by_name flows_dir_exists py_exists json_exists' py_stems json_stems
       import_flow_module read_json_flow' flow_name st =
     load_by_name flows_dir_exists py_exists json_exists py_stems json_stems
       import_flow_module read_json_flow flow_name st) /\
  (py_exists flow_name = false -> json_exists flow_name = false ->
   load_by_name flows_dir_exists py_exists json_exists py_stems json_stems
     import_flow_module read_json_flow flow_name st =
   (LoadFailed (LFileNotFoundError flow_name
                  (_list_available_flows flows_dir_exists py_stems json_stems)), st)).
Proof.
  intros Hc. unfold load_by_name. rewrite Hc. split.
  - intros Hp. rewrite Hp. reflexivity.
  - intros Hp Hj. rewrite Hp, Hj. reflexivity.
Qed.

Lemma load_by_name_python_first_witness :
  load_by_name true (fun _ => true) (fun _ => true) [] [] (fun _ => ModNoLoader)
    (fun _ => Loaded (VDict [])) "f" (mkLoaderState [] []) =
  (LoadFailed (LImportError "f.py"), mkLoaderState [] []).
Proof.
  destruct (load_by_name_python_first true (fun _ => true) (fun _ => false) [] []
              (fun _ => ModNoLoader) (fun _ => Loaded (VDict [])) "f" (mkLoaderState [] []))
    as [Hp _].
  - reflexivity.
  - rewrite (Hp eq_refl (fun _ => true) (fun _ => Loaded (VDict []))). reflexivity.
Defined.

Lemma set_add_fold (l acc : list string) :
  NoDup acc ->
  NoDup (fold_left set_add l acc) /\
  (forall x, In x (fold_left set_add l acc) <-> In x acc \/ In x l).
Proof.
  revert acc. induction l as [|y r IH]; intros acc Hn; cbn [fold_left].
  - split; [exact Hn|]. intros x. split; [intros H; left; exact H | intros [H|[]]; exact H].
  - assert (Ha : NoDup (set_add acc y) /\ (forall x, In x (set_add acc y) <-> In x acc \/ x = y)).
    { unfold set_add. destruct (str_in y acc) eqn:E.
      - split; [exact Hn|]. intros x. split; [tauto|].
        intros [H| ->]; [exact H | exact (str_in_In _ _ E)].
      - split.
        + apply NoDup_app; [exact Hn | constructor; [intros []|constructor] |].
          intros x Hx [<-|[]]. rewrite (In_str_in _ _ Hx) in E. discriminate.
        + intros x. rewrite in_app_iff. cbn [In]. split; [intros [H|[H|[]]]; auto|].
          intros [H|H]; auto. }
    destruct Ha as [Hn' Hi]. destruct (IH _ Hn') as [Hd Hm]. split; [exact Hd|].
    intros x. rewrite Hm, Hi. cbn [In]. split; intros; intuition.
Qed.

Lemma insert_str_perm (x : string) (l : list string) : Permutation (insert_str x l) (x :: l).
Proof.
  induction l as [|y r IH]; cbn [insert_str]; [reflexivity|].
  destruct (String.leb x y); [reflexivity|].
  rewrite IH. apply perm_swap.
Qed.

Lemma sort_str_perm (l : list string) : Permutation (sort_str l) l.
Proof.
  induction l as [|x r IH]; cbn [sort_str]; [reflexivity|].
  rewrite insert_str_perm, IH. reflexivity.
Qed.

Lemma leb_flip (x y : string) : String.leb x y = false -> String.leb y x = true.
Proof. intros H. destruct (String.leb_total x y) as [H'|H']; [congruence | exact H']. Qed.

Lemma insert_str_sorted (x : string) (l : list string) :
  Sorted (fun a b => String.leb a b = true) l ->
  Sorted (fun a b => String.leb a b = true) (insert_str x l).
Proof.
  induction l as [|y r IH]; intros Hs; cbn [insert_str].
  - repeat constructor.
  - destruct (String.leb x y) eqn:E.
    + constructor; [exact Hs | constructor; exact E].
    + apply Sorted_inv in Hs as [Hr Hh]. constructor; [exact (IH Hr)|].
      destruct r as [|z t]; cbn [insert_str].
      * constructor. exact (leb_flip _ _ E).
      * destruct (String.leb x z); constructor;
          [exact (leb_flip _ _ E) | inversion Hh; assumption].
Qed.

Lemma sort_str_sorted (l : list string) : Sorted (fun a b => String.leb a b = true) (sort_str l).
Proof. induction l as [|x r IH]; cbn [sort_str]; [constructor | exact (insert_str_sorted x _ IH)]. Qed.

(** [_list_available_flows]: the names are sorted, each appears once, and
    they are exactly ["<stem> (py)"] for the [*.py] entries other than
    [__init__] and ["<stem> (json)"] for the [*.json] entries; a missing
    flows directory gives the empty list. *)
Theorem available_flows_listing (flows_dir_exists : bool) (py_stems json_stems : list string) :
  let available := _list_available_flows flows_dir_exists py_stems json_stems in
  Sorted (fun a b => String.leb a b = true) available /\ NoDup available /\
  (forall x, In x available <->
     flows_dir_exists = true /\
     ((exists s, In s py_stems /\ s <> "__init__" /\ x = s ++ " (py)") \/
      (exists s, In s json_stems /\ x = s ++ " (json)"))).
Proof.
  cbv zeta. unfold _list_available_flows. destruct flows_dir_exists.
  - set (pys := map (fun s => s ++ " (py)")
                    (filter (fun s => negb (String.eqb s "__init__")) py_stems)).
    set (jss := map (fun s => s ++ " (json)") json_stems).
    destruct (set_add_fold pys [] (NoDup_nil _)) as [Hn1 Hm1].
    destruct (set_add_fold jss _ Hn1) as [Hn2 Hm2].
    split; [apply sort_str_sorted|].
    split; [exact (Permutation_NoDup (Permutation_sym (sort_str_perm _)) Hn2)|].
    intros x. split.
    + intros Hx. apply (Permutation_in _ (sort_str_perm _)) in Hx.
      apply Hm2 in Hx as [Hx|Hx]; [apply Hm1 in Hx as [[]|Hx]|]; (split; [reflexivity|]).
      * left. unfold pys in Hx. apply in_map_iff in Hx as (s & <- & Hs).
        apply filter_In in Hs as [Hs He]. exists s. split; [exact Hs|]. split; [|reflexivity].
        intros ->. discriminate He.
      * right. unfold jss in Hx. apply in_map_iff in Hx as (s & <- & Hs). exists s.
        split; [exact Hs | reflexivity].
    + intros [_ Hx]. apply (Permutation_in _ (Permutation_sym (sort_str_perm _))).
      apply Hm2. destruct Hx as [(s & Hs & Hi & ->)|(s & Hs & ->)].
      * left. apply Hm1. right. unfold pys. apply (in_map (fun s => s ++ " (py)")).
        apply filter_In.
        split; [exact Hs|]. apply negb_true_iff, String.eqb_neq. exact Hi.
      * right. unfold jss. apply (in_map (fun s => s ++ " (json)")). exact Hs.
  - split; [constructor|]. split; [constructor|]. intros x. split; [intros []|].
    intros [H _]. discriminate H.
Qed.

(** ** The two output shapes of [OutputMapper.to_question_answers] *)

(** When the outputs hold [final_result], an [answers] entry is ignored:
    replacing or adding it does not change the resolution. *)
Theorem final_result_takes_precedence float_of_str int_of_str
  (flow_outputs : list (string * val)) (original_questions : list Question) (v : val) :
  dmem flow_outputs "final_result" = true ->
  to_question_answers float_of_str int_of_str (dset flow_outputs "answers" v) original_questions =
  to_question_answers float_of_str int_of_str flow_outputs original_questions.
Proof.
  intros H. unfold to_question_answers.
  assert (Hg : dget (dset flow_outputs "answers" v) "final_result" =
               dget flow_outputs "final_result") by (apply dget_dset_other; discriminate).
  unfold dmem in *. rewrite Hg, H.
  unfold handle_single_question, get_or. rewrite Hg. reflexivity.
Qed.

Lemma final_result_takes_precedence_witness :
  to_question_answers no_float no_float
    (dset demo_outputs "answers" (VStr "not a list")) [q_of "q" "Q?" "gold"] =
  to_question_answers no_float no_float demo_outputs [q_of "q" "Q?" "gold"].
Proof. apply final_result_takes_precedence. reflexivity. Defined.

(** In the single-question shape the one answer is bound to
    [original_questions[0]]: its id, question text and input question ids
    are those of that question whatever the flow reports, the other
    original questions play no part, and with no original question the
    resolution fails. *)
Theorem single_question_binding float_of_str int_of_str (flow_outputs : list (string * val)) :
  dmem flow_outputs "final_result" = true ->
  (exists e, to_question_answers float_of_str int_of_str flow_outputs [] = Err e) /\
  (forall q rest,
     to_question_answers float_of_str int_of_str flow_outputs (q :: rest) =
     to_question_answers float_of_str int_of_str flow_outputs [q]) /\
  (forall q rest qas,
     to_question_answers float_of_str int_of_str flow_outputs (q :: rest) = Ok qas ->
     exists qa, qas = [qa] /\ qa.(qa_id) = q.(q_id) /\ qa.(qa_question) = q.(q_question) /\
                qa.(qa_inputQuestionIds) = q.(q_inputQuestionIds)).
Proof.
  intros Hf. unfold to_question_answers. rewrite Hf. split; [|split].
  - unfold handle_single_question. cbv zeta.
    destruct (get_or flow_outputs "final_result" VNone) as [| | | | |[|kv fr]];
      try (eexists; reflexivity).
    destruct (missing_of single_required (kv :: fr)); [|eexists; reflexivity].
    repeat match goal with |- context [if ?b then _ else _] => destruct b end;
      eexists; reflexivity.
  - intros q rest. reflexivity.
  - intros q rest qas H. unfold handle_single_question in H. cbv zeta in H. inv_ok H.
    injection H as <-. eexists. repeat split.
Qed.

Lemma single_question_binding_witness :
  exists e, to_question_answers no_float no_float demo_outputs [] = Err e.
Proof. destruct (single_question_binding no_float no_float demo_outputs) as [H _]; [reflexivity | exact H]. Defined.

(** ** Entries skipped by [OutputMapper._build_annotations] *)

(** An entry the loop skips: not a dict, or a dict whose
    [documentStatement] is absent or falsy. *)
Definition skipped_annotation (raw : val) : bool :=
  match raw with
  | VDict d => negb (truthy (get_or d "documentStatement" (VDict [])))
  | _ => true
  end.

Lemma mapR_app {A B} (f : A -> result B) (l1 l2 : list A) :
  mapR f (l1 ++ l2) = (let* a := mapR f l1 in let* b := mapR f l2 in Ok (a ++ b))%list.
Proof.
  induction l1 as [|x r IH]; cbn [app mapR].
  - destruct (mapR f l2); reflexivity.
  - destruct (f x); cbn [bind]; [|reflexivity]. rewrite IH.
    destruct (mapR f r); cbn [bind]; [|reflexivity].
    destruct (mapR f l2); reflexivity.
Qed.

(** Skipped entries are skipped wherever they stand: removing them from
    the raw list changes neither the annotations built nor whether the
    building fails. *)
Theorem build_annotations_skips float_of_str int_of_str (l1 l2 : list val) (raw : val) :
  skipped_annotation raw = true ->
  build_annotations float_of_str int_of_str (VList (l1 ++ raw :: l2)) =
  build_annotations float_of_str int_of_str (VList (l1 ++ l2)).
Proof.
  intros Hs. unfold build_annotations. cbn [py_list bind].
  assert (Hr : build_annotation float_of_str int_of_str raw = Ok None).
  { destruct raw as [| | | | |d]; try reflexivity. cbn [skipped_annotation] in Hs.
    unfold build_annotation. destruct (truthy (get_or d "documentStatement" (VDict [])));
      [discriminate | reflexivity]. }
  rewrite !mapR_app. cbn [mapR]. rewrite Hr. cbn [bind].
  destruct (mapR _ l1) as [a|]; cbn [bind]; [|reflexivity].
  destruct (mapR _ l2) as [b|]; cbn [bind]; [|reflexivity].
  rewrite !flat_map_app. reflexivity.
Qed.

Lemma build_annotations_skips_witness :
  build_annotations no_float no_float
    (VList [VStr "junk"; VDict [("id", VStr "a"); ("documentStatement", VDict [])]]) = Ok [].
Proof.
  refine (eq_trans (build_annotations_skips no_float no_float []
             [VDict [("id", VStr "a"); ("documentStatement", VDict [])]] (VStr "junk") eq_refl) _).
  refine (eq_trans (build_annotations_skips no_float no_float [] []
             (VDict [("id", VStr "a"); ("documentStatement", VDict [])]) eq_refl) _).
  reflexivity.
Defined.

(** ** Outputs holding both shapes *)

(** The scan only records ids it was asked for. *)
Definition keys_within (u : list val) (st : scan_state) : Prop :=
  incl (remaining st) u /\
  forall k e, In (k, e) (chunk_by_content_id st) -> exists y, In y u /\ py_eqb (VStr k) y = true.

Lemma scan_candidates_keys u f ch cands st :
  keys_within u st -> keys_within u (scan_candidates f ch cands st).
Proof.
  revert st. induction cands as [|v r IH]; intros st [Hr Hk]; cbn [scan_candidates];
    [split; assumption|].
  destruct (existsb (py_eqb (VStr (_content_id v ch.(ch_id)))) (remaining st)) eqn:E.
  - assert (Hs : keys_within u
                   (mkScan (filter (fun x => negb (py_eqb (VStr (_content_id v ch.(ch_id))) x))
                              (remaining st))
                      ((_content_id v ch.(ch_id), (ch, f.(f_id), f.(f_name)))
                         :: chunk_by_content_id st))).
    { split; cbn [remaining chunk_by_content_id].
      - intros x Hx. apply filter_In in Hx as [Hx _]. exact (Hr x Hx).
      - intros k e [He|He].
        + injection He as <- _. apply existsb_exists in E as (y & Hy & Ey).
          exists y. split; [exact (Hr y Hy) | exact Ey].
        + exact (Hk k e He). }
    destruct (remaining_empty _); [exact Hs | exact (IH _ Hs)].
  - apply IH. split; assumption.
Qed.

Lemma scan_chunks_keys u f cands chs st :
  keys_within u st -> keys_within u (scan_chunks f cands chs st).
Proof.
  revert st. induction chs as [|ch r IH]; intros st H; cbn [scan_chunks]; [exact H|].
  destruct (String.eqb ch.(ch_id) ""); [exact (IH _ H)|].
  pose proof (scan_candidates_keys u f ch cands st H) as Hs.
  destruct (remaining_empty _); [exact Hs | exact (IH _ Hs)].
Qed.

Lemma scan_files_keys u svc files st trace :
  keys_within u st -> keys_within u (fst (scan_files svc files st trace)).
Proof.
  revert st trace. induction files as [|f r IH]; intros st trace H; cbn [scan_files fst];
    [exact H|].
  destruct (String.eqb f.(f_id) "" || String.eqb f.(f_checksum) ""); [exact (IH _ _ H)|].
  pose proof (scan_chunks_keys u f (_doc_id_variants f.(f_id))
                (get_document_chunks svc f.(f_checksum)) st H) as Hs.
  destruct (remaining_empty _); [exact Hs | exact (IH _ _ Hs)].
Qed.

Lemma mapR_In_err {A B} (f : A -> result B) (l : list A) (x : A) (e : py_error) :
  In x l -> f x = Err e -> exists e', mapR f l = Err e'.
Proof.
  induction l as [|a r IH]; intros Hx Hf; [destruct Hx|]. cbn [mapR].
  destruct Hx as [<-|Hx].
  - rewrite Hf. exists e. reflexivity.
  - destruct (f a); cbn [bind]; [|eexists; reflexivity].
    destruct (IH Hx Hf) as (e' & ->). exists e'. reflexivity.
Qed.

Lemma subseq_incl {A} (u l : list A) : subseq u l -> incl u l.
Proof.
  induction 1 as [|x u l _ IH|x u l _ IH]; intros y Hy; [exact Hy | right; exact (IH y Hy)|].
  destruct Hy as [<-|Hy]; [left; reflexivity | right; exact (IH y Hy)].
Qed.

(** When the outputs hold both [final_result] and [answers], only the ids
    cited by [final_result] are looked up, yet every element of [answers]
    is rewritten with them: as soon as [final_result] cites some id, an
    [answers] element citing an id that [final_result] does not cite makes
    the enrichment fail (with [KeyError], or an earlier error), although
    [OutputMapper] then reads [final_result] only. *)
Theorem enrich_both_shapes_fails (svc : SearchService) (flow_outputs : list (string * val))
  (source_files : list FileMeta) (fr : val) (ids : list val) (l : list val) (x : val)
  (xids : list val) (c : val) :
  dget flow_outputs "final_result" = Some fr -> jcids_of fr = Ok ids -> ids <> [] ->
  dget flow_outputs "answers" = Some (VList l) -> In x l -> jcids_of x = Ok xids ->
  In c xids -> (forall y, In y ids -> py_eqb c y = false) ->
  exists e, fst (_enrich_with_annotations svc flow_outputs source_files) = Err e.
Proof.
  intros Hf Hj Hn Ha Hx Hxj Hc Hne.
  assert (Hcol : collect_content_ids flow_outputs = Ok ids)
    by (unfold collect_content_ids, dmem, get_or; rewrite Hf; exact Hj).
  unfold _enrich_with_annotations. rewrite Hcol.
  destruct ids as [|i0 is0] eqn:Eids; [congruence|]. rewrite <- Eids in *.
  destruct (dedup [] ids) as [u|e] eqn:Hd; [|eexists; reflexivity].
  set (trace0 := EvSearchClient :: (if svc.(session_open) then [] else [EvStart])).
  assert (Hk : keys_within u (fst (scan_files svc source_files (mkScan u []) trace0))).
  { apply scan_files_keys. split; [intros y Hy; exact Hy | intros k e []]. }
  destruct (scan_files svc source_files (mkScan u []) trace0) as [st tr].
  cbn [fst] in Hk |- *. destruct Hk as [_ Hk].
  destruct (py_sorted (remaining st)) as [[|a b]|e]; try (eexists; reflexivity).
  set (m := chunk_by_content_id st) in Hk |- *.
  destruct (dedup_ok_gen [] ids u Hd) as (Hsub & _).
  assert (Hl : lookup_cid m c = None).
  { destruct (lookup_cid m c) as [e|] eqn:El; [|reflexivity]. exfalso.
    destruct (lookup_cid_some m c e El) as (k & Hke & Ek).
    destruct (Hk k e Hke) as (y & Hy & Ey).
    apply py_eqb_VStr in Ek. subst c.
    rewrite (Hne y (subseq_incl _ _ Hsub y Hy)) in Ey. discriminate. }
  assert (Hrec : exists e, enrich_record m x = Err e).
  { unfold enrich_record. rewrite Hxj. cbn [bind]. unfold _build_annotations_for.
    match goal with |- context [mapR ?g xids] =>
      destruct (mapR_In_err g xids c (if negb (hashable c) then unhashable_err else KeyError c)
                  Hc) as (e' & He') end.
    - cbv beta. rewrite Hl. destruct (negb (hashable c)); reflexivity.
    - rewrite He'. eexists. reflexivity. }
  destruct Hrec as (e & He).
  unfold write_back, dmem, get_or. rewrite Hf. cbn [bind].
  destruct (enrich_record m fr) as [y|e1]; cbn [bind]; [|eexists; reflexivity].
  rewrite dget_dset_other by discriminate. rewrite Ha, py_list_or_list. cbn [bind].
  destruct (mapR_In_err (enrich_record m) l x e Hx He) as (e' & ->).
  eexists. reflexivity.
Qed.

Definition both_shapes_outputs : list (string * val) :=
  [("final_result", VDict [("answer", VStr "X"); ("answer_explanation", VStr "E");
                           ("justifying_contents_ids", VList [VStr (_content_id "d1" "ch1")])]);
   ("answers", VList [VDict [("justifying_contents_ids", VList [VStr (_content_id "d1" "ch2")])]])].

Lemma enrich_both_shapes_fails_witness :
  exists e, fst (_enrich_with_annotations demo_service both_shapes_outputs [mkFile "d1" "c1" "doc"])
              = Err e.
Proof.
  apply (enrich_both_shapes_fails demo_service both_shapes_outputs [mkFile "d1" "c1" "doc"]
           (VDict [("answer", VStr "X"); ("answer_explanation", VStr "E");
                   ("justifying_contents_ids", VList [VStr (_content_id "d1" "ch1")])])
           [VStr (_content_id "d1" "ch1")]
           [VDict [("justifying_contents_ids", VList [VStr (_content_id "d1" "ch2")])]]
           (VDict [("justifying_contents_ids", VList [VStr (_content_id "d1" "ch2")])])
           [VStr (_content_id "d1" "ch2")] (VStr (_content_id "d1" "ch2"))).
  - reflexivity.
  - reflexivity.
  - discriminate.
  - reflexivity.
  - left. reflexivity.
  - reflexivity.
  - left. reflexivity.
  - intros y [<-|[]]. vm_compute. reflexivity.
Defined.

(** ** [CustomWorkflowActivity.process] *)

(** What building and running the flow gives: building the [Flow] model
    from the flow dict raises, [runtime.run] raises, or the run result
    (status, error text and outputs). *)
Inductive run_outcome : Type :=
| RunInvalidFlow (e : py_error)
| RunRaised (what : string)
| RunDone (status error : string) (outputs : list (string * val)).

(** Observable steps of [process]: the flow run with its inputs, then the
    calls to the search service made by the enrichment. *)
Inductive proc_event : Type :=
| PRun (inputs : list (string * val))
| PSearch (ev : event).

Definition file_meta_of (f : FileMetaData) : FileMeta :=
  mkFile f.(fmd_id) f.(fmd_checksum) f.(fmd_name).

Definition question_of (q : QuestionMsg) : Question :=
  mkQuestion q.(qm_id) q.(qm_question) q.(qm_expectedAnswer) q.(qm_inputQuestionIds).

(** [json.loads], [FlowLoader.load_by_name], the flow runtime, the search
    service and [float]/[int] on strings are parameters, as is
    [dict.update] with a list or string argument (a parsed
    [additional_inputs] that is neither a flow nor a dict). The imports of
    the Forge runtime are taken to succeed. *)
Section Process.
Variable json_loads : string -> json_outcome.
Variable load_flow : string -> result val.
Variable update_non_dict : list (string * val) -> val -> result (list (string * val)).
Variable run_flow : val -> list (string * val) -> run_outcome.
Variable svc : SearchService.
Variable float_of_str int_of_str : string -> option Z.

(** [InputMapper.build_custom_workflow_inputs(..., additional_params=...)]
    with the parameters returned by [_resolve_flow_and_params]. *)
Definition process_inputs (first_source_files second_source_files : list FileMetaData)
  (questions : list QuestionMsg) (additional_params : val) : result (list (string * val)) :=
  match additional_params with
  | VDict d => Ok (build_custom_workflow_inputs first_source_files second_source_files
                     questions (Some d))
  | v =>
      if truthy v
      then update_non_dict (standard_custom_inputs first_source_files second_source_files
                              questions) v
      else Ok (build_custom_workflow_inputs first_source_files second_source_files
                 questions None)
  end.

Definition process (workflow_id additional_inputs : string)
  (first_source_files second_source_files : list FileMetaData) (questions : list QuestionMsg)
  : result (list QuestionAnswer) * list proc_event :=
  match fst (_resolve_flow_and_params json_loads load_flow workflow_id additional_inputs) with
  | Err e => (Err e, [])
  | Ok (flow_dict, additional_params) =>
      match process_inputs first_source_files second_source_files questions
              additional_params with
      | Err e => (Err e, [])
      | Ok flow_inputs =>
          match run_flow flow_dict flow_inputs with
          | RunInvalidFlow e => (Err e, [])
          | RunRaised what =>
              (Err (RuntimeError (MText ("Forge flow execution failed: " ++ what))),
               [PRun flow_inputs])
          | RunDone status error outputs =>
              if String.eqb status "succeeded" then
                let '(enriched, trace) :=
                  _enrich_with_annotations svc outputs
                    (map file_meta_of (first_source_files ++ second_source_files)) in
                ((let* enriched_outputs := enriched in
                  to_question_answers float_of_str int_of_str enriched_outputs
                    (map question_of questions)),
                 PRun flow_inputs :: map PSearch trace)
              else
                (Err (RuntimeError (MText ("Forge flow failed with status " ++ status ++
                                           ": " ++ error))),
                 [PRun flow_inputs])
          end
      end
  end.
End Process.

(** The search service is reached, and answers are returned, only after
    the flow was resolved, given its inputs and run to the status
    ["succeeded"]: the enrichment then works on the run's outputs over the
    first and then the second source files, and the answers are the output
    mapping of its result against the task's questions. A resolution
    error, a failed or raising run, or a run with any other status stops
    [process] before any search call. *)
Theorem process_requires_successful_run json_loads load_flow update_non_dict run_flow svc
  float_of_str int_of_str (workflow_id additional_inputs : string)
  (first_source_files second_source_files : list FileMetaData) (questions : list QuestionMsg) :
  let p := process json_loads load_flow update_non_dict run_flow svc float_of_str int_of_str
             workflow_id additional_inputs first_source_files second_source_files questions in
  let sources := map file_meta_of (first_source_files ++ second_source_files) in
  ((exists ev, In (PSearch ev) (snd p)) \/ (exists qas, fst p = Ok qas)) ->
  exists flow_dict additional_params flow_inputs error outputs,
    fst (_resolve_flow_and_params json_loads load_flow workflow_id additional_inputs) =
      Ok (flow_dict, additional_params) /\
    process_inputs update_non_dict first_source_files second_source_files questions
      additional_params = Ok flow_inputs /\
    run_flow flow_dict flow_inputs = RunDone "succeeded" error outputs /\
    snd p = PRun flow_inputs :: map PSearch (snd (_enrich_with_annotations svc outputs sources)) /\
    fst p = (let* enriched_outputs := fst (_enrich_with_annotations svc outputs sources) in
             to_question_answers float_of_str int_of_str enriched_outputs
               (map question_of questions)).
Proof.
  cbv zeta. intros H. unfold process in *.
  destruct (fst (_resolve_flow_and_params json_loads load_flow workflow_id additional_inputs))
    as [[flow_dict additional_params]|e] eqn:Eres;
    [|destruct H as [(ev & [])|(qas & Hq)]; discriminate].
  destruct (process_inputs update_non_dict first_source_files second_source_files questions
              additional_params) as [flow_inputs|e] eqn:Ein;
    [|destruct H as [(ev & [])|(qas & Hq)]; discriminate].
  destruct (run_flow flow_dict flow_inputs) as [e|what|status error outputs] eqn:Er;
    [destruct H as [(ev & [])|(qas & Hq)]; discriminate
    |destruct H as [(ev & [Hev|[]])|(qas & Hq)]; discriminate|].
  destruct (String.eqb_spec status "succeeded") as [->|Hs];
    [|destruct H as [(ev & [Hev|[]])|(qas & Hq)]; discriminate].
  exists flow_dict, additional_params, flow_inputs, error, outputs.
  split; [first [exact Eres | reflexivity]|]. split; [first [exact Ein | reflexivity]|].
  split; [exact Er|].
  destruct (_enrich_with_annotations svc outputs
              (map file_meta_of (first_source_files ++ second_source_files))) as [r tr].
  split; reflexivity.
Qed.

Lemma process_requires_successful_run_witness :
  exists flow_dict additional_params flow_inputs error outputs,
    fst (_resolve_flow_and_params demo_json_loads (fun _ => Ok (VDict [])) "" "") =
      Ok (flow_dict, additional_params) /\
    process_inputs (fun d _ => Ok d) [mkFileMetaData "d1" "doc" "c1" "" "" ""] []
      [mkQuestionMsg "q" "Q?" None "" "gold" []] additional_params = Ok flow_inputs /\
    (fun _ _ => RunDone "succeeded" "" demo_outputs) flow_dict flow_inputs =
      RunDone "succeeded" error outputs /\
    snd (process demo_json_loads (fun _ => Ok (VDict [])) (fun d _ => Ok d)
           (fun _ _ => RunDone "succeeded" "" demo_outputs) demo_service no_float no_float
           "" "" [mkFileMetaData "d1" "doc" "c1" "" "" ""] []
           [mkQuestionMsg "q" "Q?" None "" "gold" []]) =
      PRun flow_inputs :: map PSearch (snd (_enrich_with_annotations demo_service outputs
                                             [mkFile "d1" "c1" "doc"])) /\
    fst (process demo_json_loads (fun _ => Ok (VDict [])) (fun d _ => Ok d)
           (fun _ _ => RunDone "succeeded" "" demo_outputs) demo_service no_float no_float
           "" "" [mkFileMetaData "d1" "doc" "c1" "" "" ""] []
           [mkQuestionMsg "q" "Q?" None "" "gold" []]) =
      (let* enriched_outputs := fst (_enrich_with_annotations demo_service outputs
                                       [mkFile "d1" "c1" "doc"]) in
       to_question_answers no_float no_float enriched_outputs
         [mkQuestion "q" "Q?" "gold" []]).
Proof.
  apply (process_requires_successful_run demo_json_loads (fun _ => Ok (VDict []))
           (fun d _ => Ok d) (fun _ _ => RunDone "succeeded" "" demo_outputs) demo_service
           no_float no_float "" "" [mkFileMetaData "d1" "doc" "c1" "" "" ""] []
           [mkQuestionMsg "q" "Q?" None "" "gold" []]).
  left. exists EvSearchClient. vm_compute. right. left. reflexivity.
Defined.
